(** * Voice translator: language resolution and request orchestration

    A shallow embedding of [app.py].  The program is a sequence of calls to
    three upstream services (speech recognition, translation and detection,
    speech synthesis) glued together with the Streamlit session state.  The
    functions of the program are written in a small monad that threads the
    session state, the hidden state of the outside world, Python's
    exceptions and the trace of what the program asked of the outside
    world. *)

From Stdlib Require Import List String Ascii Bool NArith ZArith QArith.
Import ListNotations.

Set Implicit Arguments.

Local Open Scope N_scope.

(** ** Python strings *)

(** A Python [str] is a sequence of Unicode code points. *)
Definition str := list N.

(** An ASCII literal of the source. *)
Fixpoint lit (s : string) : str :=
  match s with
  | EmptyString => []
  | String c r => N_of_ascii c :: lit r
  end.

Fixpoint str_eqb (a b : str) : bool :=
  match a, b with
  | [], [] => true
  | x :: a', y :: b' => N.eqb x y && str_eqb a' b'
  | _, _ => false
  end.

(** Truth value of a string: [if text] / [if not text]. *)
Definition truthy (s : str) : bool :=
  match s with [] => false | _ :: _ => true end.

(** [str.isspace] on one code point, as CPython's [Py_UNICODE_ISSPACE]. *)
Definition isspace (c : N) : bool :=
  ((9 <=? c) && (c <=? 13)) || ((28 <=? c) && (c <=? 32))
  || (c =? 133) || (c =? 160) || (c =? 5760)
  || ((8192 <=? c) && (c <=? 8202))
  || (c =? 8232) || (c =? 8233) || (c =? 8239) || (c =? 8287)
  || (c =? 12288).

Fixpoint lstrip (s : str) : str :=
  match s with
  | [] => []
  | c :: r => if isspace c then lstrip r else s
  end.

Definition rstrip (s : str) : str := rev (lstrip (rev s)).

(** [s.strip()] *)
Definition strip (s : str) : str := rstrip (lstrip s).

(** A string that is empty or made of whitespace only. *)
Definition blank (s : str) : bool := forallb isspace s.

(** [s.split(sep)] for a one-character separator: the first piece and the
    pieces after it (the result of [split] is never empty). *)
Fixpoint split (sep : N) (s : str) : str * list str :=
  match s with
  | [] => ([], [])
  | c :: r =>
      let (h, t) := split sep r in
      if N.eqb c sep then ([], h :: t) else (c :: h, t)
  end.

(** [s.split(sep)[0]] *)
Definition split0 (sep : N) (s : str) : str := fst (split sep s).

Definition hyphen : N := 45.

(** ** Python dictionaries with string keys and values

    Insertion order is kept and a later binding of a key replaces the
    earlier value, as in the comprehension that builds
    [LANG_NAME_TO_CODE]. *)
Definition dict := list (str * str).

Fixpoint dict_lookup (d : dict) (k : str) : option str :=
  match d with
  | [] => None
  | (k', v) :: r => if str_eqb k' k then Some v else dict_lookup r k
  end.

(** [d.get(k, default)] *)
Definition dict_get (d : dict) (k default : str) : str :=
  match dict_lookup d k with Some v => v | None => default end.

(** [k in d] *)
Definition dict_mem (d : dict) (k : str) : bool :=
  match dict_lookup d k with Some _ => true | None => false end.

(** [d[k] = v] *)
Fixpoint dict_set (d : dict) (k v : str) : dict :=
  match d with
  | [] => [(k, v)]
  | (k', v') :: r =>
      if str_eqb k' k then (k', v) :: r else (k', v') :: dict_set r k v
  end.

(** [str.title] restricted to ASCII letters (every other code point is kept
    and counts as uncased); the names of the language tables are ASCII. *)
Definition is_lower (c : N) : bool := (97 <=? c) && (c <=? 122).
Definition is_upper (c : N) : bool := (65 <=? c) && (c <=? 90).

Fixpoint title_from (prev_cased : bool) (s : str) : str :=
  match s with
  | [] => []
  | c :: r =>
      if is_lower c then
        (if prev_cased then c else c - 32) :: title_from true r
      else if is_upper c then
        (if prev_cased then c + 32 else c) :: title_from true r
      else c :: title_from false r
  end.

Definition title_ascii (s : str) : str := title_from false s.

(** ** What the program exchanges with the outside world *)

(** A captured audio sample and a synthesised audio stream, as raw bytes. *)
Definition AudioData := list N.
Definition bytes := list N.

(** The exceptions the program tells apart: the three classes of
    [speech_recognition] named in [listen_speech], the [KeyError] of a
    failed dictionary subscript, and any other subclass of [Exception].
    The upstream classes carry the text [str(e)]. *)
Inductive exn : Type :=
| WaitTimeoutError (msg : str)
| UnknownValueError (msg : str)
| RequestError (msg : str)
| KeyError (key : str)
| OtherException (msg : str).

(** The object returned by [Translator.translate]: [result.text] and
    [result.src]. *)
Record Translated : Type := { result_text : str; result_src : str }.

(** The calls into the libraries, indexed by the type of what they return.
    [Microphone] is entering [with sr.Microphone() as source];
    [now_strftime] is [datetime.now().strftime(format)]; [gTTS] builds the
    synthesis request and [write_to_fp] performs it for that request.
    Durations are in seconds. *)
Inductive call : Type -> Type :=
| Microphone : call unit
| adjust_for_ambient_noise (duration : Q) : call unit
| listen (timeout phrase_time_limit : Z) : call AudioData
| recognize_google (audio : AudioData) (language : option str) : call str
| detect (raw_text : str) : call str
| translate (text src dest : str) : call Translated
| now_strftime (format : str) : call str
| gTTS (text lang : str) : call unit
| write_to_fp (text lang : str) : call bytes.

(** What the program shows through Streamlit.  [error_exc prefix e] is
    [st.error(f"{prefix}{str(e)}")]. *)
Inductive widget : Type :=
| info (s : str)
| warning (s : str)
| error (s : str)
| error_exc (prefix : str) (e : exn)
| success (s : str)
| subheader (s : str)
| expander (s : str)
| write (s : str).

Inductive event : Type :=
| Called {X : Type} (c : call X)
| Shown (w : widget).

(** ** Session state *)

(** One entry of [translation_history]: the five-element list
    [[timestamp, src_lang_name, tgt_lang_name, text, result.text]]. *)
Record HistoryEntry : Type := {
  timestamp : str;
  src_lang : str;
  tgt_lang : str;
  inp : str;
  outp : str
}.

Record session_state : Type := {
  input_lang : str;
  target_lang : str;
  input_text : str;
  translated_text : str;
  detected_lang_code : str;
  translation_history : list HistoryEntry;
  audio_data : option bytes;
  audio_lang : option str
}.

Definition set_input_text (v : str) (s : session_state) : session_state :=
  {| input_lang := input_lang s; target_lang := target_lang s;
     input_text := v; translated_text := translated_text s;
     detected_lang_code := detected_lang_code s;
     translation_history := translation_history s;
     audio_data := audio_data s; audio_lang := audio_lang s |}.

Definition set_translated_text (v : str) (s : session_state) : session_state :=
  {| input_lang := input_lang s; target_lang := target_lang s;
     input_text := input_text s; translated_text := v;
     detected_lang_code := detected_lang_code s;
     translation_history := translation_history s;
     audio_data := audio_data s; audio_lang := audio_lang s |}.

Definition set_detected_lang_code (v : str) (s : session_state)
  : session_state :=
  {| input_lang := input_lang s; target_lang := target_lang s;
     input_text := input_text s; translated_text := translated_text s;
     detected_lang_code := v;
     translation_history := translation_history s;
     audio_data := audio_data s; audio_lang := audio_lang s |}.

(** [st.session_state.translation_history.append(entry)] *)
Definition history_append (entry : HistoryEntry) (s : session_state)
  : session_state :=
  {| input_lang := input_lang s; target_lang := target_lang s;
     input_text := input_text s; translated_text := translated_text s;
     detected_lang_code := detected_lang_code s;
     translation_history := translation_history s ++ [entry];
     audio_data := audio_data s; audio_lang := audio_lang s |}.

Definition set_audio (data : bytes) (lang : str) (s : session_state)
  : session_state :=
  {| input_lang := input_lang s; target_lang := target_lang s;
     input_text := input_text s; translated_text := translated_text s;
     detected_lang_code := detected_lang_code s;
     translation_history := translation_history s;
     audio_data := Some data; audio_lang := Some lang |}.

(** ** The monad of the program *)

Inductive outcome (A : Type) : Type :=
| Returned (a : A)
| Raised (e : exn).
Arguments Raised {A} e.

(** The result of running a piece of the program: how it ended, the session
    state and the outside world it left, and what it asked and showed, in
    order. *)
Record run (E A : Type) : Type := Run {
  result : outcome A;
  session : session_state;
  world : E;
  trace : list event
}.

Definition M (E A : Type) : Type := session_state -> E -> run E A.

Section Monad.
Context {E : Type}.

Definition ret {A} (a : A) : M E A := fun s e => Run (Returned a) s e [].

Definition raise {A} (x : exn) : M E A := fun s e => Run (Raised x) s e [].

(** [t] happened before the run [r]. *)
Definition after {A} (t : list event) (r : run E A) : run E A :=
  match r with
  | Run o s e t' => Run o s e (t ++ t')
  end.

Definition bind {A B} (m : M E A) (k : A -> M E B) : M E B :=
  fun s e =>
    match m s e with
    | Run (Returned a) s' e' t => after t (k a s' e')
    | Run (Raised x) s' e' t => Run (Raised x) s' e' t
    end.

(** [try: m except Exception as x: h x].  What [m] did to the session
    before it raised stays done. *)
Definition try {A} (m : M E A) (h : exn -> M E A) : M E A :=
  fun s e =>
    match m s e with
    | Run (Returned a) s' e' t => Run (Returned a) s' e' t
    | Run (Raised x) s' e' t => after t (h x s' e')
    end.

Definition get : M E session_state := fun s e => Run (Returned s) s e [].

Definition modify (f : session_state -> session_state) : M E unit :=
  fun s e => Run (Returned tt) (f s) e [].

Definition show (w : widget) : M E unit :=
  fun s e => Run (Returned tt) s e [Shown w].

(** A call into a library: the outside world answers with a value or an
    exception and moves on. *)
Definition invoke (upstream : forall X, call X -> E -> (exn + X) * E)
    {X} (c : call X) : M E X :=
  fun s e =>
    match upstream X c e with
    | (inr x, e') => Run (Returned x) s e' [Called c]
    | (inl err, e') => Run (Raised err) s e' [Called c]
    end.

(** [for x in xs: body x] *)
Fixpoint for_each {A} (xs : list A) (body : A -> M E unit) : M E unit :=
  match xs with
  | [] => ret tt
  | x :: r => bind (body x) (fun _ => for_each r body)
  end.
End Monad.

Declare Scope py_scope.
Delimit Scope py_scope with py.
Notation "x <- m ;; k" := (bind m (fun x => k))
  (at level 61, m at next level, right associativity) : py_scope.
Notation "m ;; k" := (bind m (fun _ => k))
  (at level 61, right associativity) : py_scope.

(** ** The program *)

Local Open Scope py_scope.

Section App.
Context {E : Type}.

(** The outside world: every library call is answered from its hidden
    state. *)
Variable upstream : forall X, call X -> E -> (exn + X) * E.

(** [googletrans.LANGUAGES] (code to lower-case name), the result of
    [gtts.lang.tts_langs()] and [str.title]: constants and a built-in of
    the libraries, taken as parameters. *)
Variable LANGUAGES : dict.
Variable TTS_SUPPORTED : dict.
Variable title : str -> str.

(** [{name.title(): code for code, name in LANGUAGES.items()}] *)
Definition LANG_NAME_TO_CODE : dict :=
  fold_left (fun d (item : str * str) =>
               dict_set d (title (snd item)) (fst item))
            LANGUAGES [].

(** [d[k]] *)
Definition subscript (d : dict) (k : str) : M E str :=
  match dict_lookup d k with
  | Some v => ret v
  | None => raise (KeyError k)
  end.

Definition NoSpeechDetected : widget :=
  error (lit "No speech detected. Please try again.").
Definition UnintelligibleAudio : widget :=
  error (lit "Could not understand audio. Try speaking clearly.").
Definition ServiceUnavailable : widget :=
  error (lit "Speech service unavailable.").
Definition EmptyInput : widget :=
  warning (lit "No input text to translate!").
Definition NoTargetSelected : widget :=
  warning (lit "Please select a Target Language.").
Definition TranslationServiceError (e : exn) : widget :=
  error_exc (lit "Translation error: ") e.
Definition SynthesisServiceError (e : exn) : widget :=
  error_exc (lit "TTS Error: ") e.
Definition UnsupportedSynthesisLanguage (lang_code : str) : widget :=
  warning (lit "No TTS support for " ++ dict_get LANGUAGES lang_code lang_code).

(** [if lang_code == "te": lang_code = "te-IN"] *)
Definition remap (lang_code : str) : str :=
  if str_eqb lang_code (lit "te") then lit "te-IN" else lang_code.

(** The recognition step of [listen_speech] once [lang_code] is known
    (the [if lang_code != "auto"] statement); it returns [text]. *)
Definition recognize (audio : AudioData) (lang_code : str) : M E str :=
  if negb (str_eqb lang_code (lit "auto")) then
    let lang_code := remap lang_code in
    text <- invoke upstream (recognize_google audio (Some lang_code)) ;;
    modify (set_detected_lang_code (split0 hyphen lang_code)) ;;
    ret text
  else
    raw_text <- invoke upstream (recognize_google audio None) ;;
    detected_lang <- invoke upstream (detect raw_text) ;;
    modify (set_detected_lang_code detected_lang) ;;
    try (s <- get ;;
         invoke upstream
           (recognize_google audio (Some (detected_lang_code s))))
        (fun _ => ret raw_text).

(** [lang_code] from the selected input language. *)
Definition selected_lang_code (s : session_state) : str :=
  let selected_input_lang := input_lang s in
  if str_eqb selected_input_lang (lit "Auto Detect") then lit "auto"
  else dict_get LANG_NAME_TO_CODE selected_input_lang (lit "auto").

(** The [except] clauses of [listen_speech], in their order. *)
Definition listen_speech_except (e : exn) : M E unit :=
  match e with
  | WaitTimeoutError _ => show NoSpeechDetected
  | UnknownValueError _ => show UnintelligibleAudio
  | RequestError _ => show ServiceUnavailable
  | _ => show (error_exc (lit "Error: ") e)
  end.

(** [listen_speech].  The thresholds set on the recognizer, the placeholder
    that carries the status messages and leaving the [with] block do not
    decide what is called or stored, and are left out. *)
Definition listen_speech : M E unit :=
  try
    (invoke upstream Microphone ;;
     show (info (lit "Calibrating mic... stay quiet")) ;;
     invoke upstream (adjust_for_ambient_noise (3 # 2)) ;;
     show (info (lit "Listening... Speak now " ++ [127908])) ;;
     audio <- invoke upstream (listen 10 25) ;;
     show (info (lit "Recognizing speech...")) ;;
     s <- get ;;
     text <- recognize audio (selected_lang_code s) ;;
     modify (set_input_text text) ;;
     s <- get ;;
     let detected_lang_name :=
       title (dict_get LANGUAGES (detected_lang_code s) (lit "Unknown")) in
     show (success (lit "Speech captured (" ++ detected_lang_name
                    ++ lit ") " ++ [9989])))
    listen_speech_except.

Definition translate_text : M E unit :=
  s <- get ;;
  let text := strip (input_text s) in
  if negb (truthy text) then show EmptyInput
  else
    let tgt_full := strip (target_lang s) in
    if negb (truthy tgt_full) then show NoTargetSelected
    else
      dest_code <- subscript LANG_NAME_TO_CODE tgt_full ;;
      try
        (s <- get ;;
         res <- invoke upstream
                  (translate text (detected_lang_code s) dest_code) ;;
         modify (set_translated_text (result_text res)) ;;
         let src_lang_name :=
           title (dict_get LANGUAGES (result_src res) (lit "Unknown")) in
         let tgt_lang_name :=
           title (dict_get LANGUAGES dest_code (lit "Unknown")) in
         now <- invoke upstream (now_strftime (lit "%Y-%m-%d %H:%M:%S")) ;;
         modify (history_append
                   {| timestamp := now; src_lang := src_lang_name;
                      tgt_lang := tgt_lang_name; inp := text;
                      outp := result_text res |}) ;;
         show (success (lit "Translated " ++ src_lang_name ++ [32; 8594; 32]
                        ++ tgt_lang_name ++ [32; 9989])))
        (fun e => show (TranslationServiceError e)).

Definition speak_text (text lang_code : str) : M E unit :=
  try
    (if dict_mem TTS_SUPPORTED lang_code then
       invoke upstream (gTTS text lang_code) ;;
       audio_buffer <- invoke upstream (write_to_fp text lang_code) ;;
       modify (set_audio audio_buffer lang_code)
     else show (UnsupportedSynthesisLanguage lang_code))
    (fun e => show (SynthesisServiceError e)).

Definition speak_input : M E unit :=
  s <- get ;;
  let text := strip (input_text s) in
  if truthy text && dict_mem TTS_SUPPORTED (detected_lang_code s) then
    speak_text text (detected_lang_code s)
  else show (info (lit "No input text or unsupported language for TTS.")).

Definition speak_output : M E unit :=
  s <- get ;;
  let text := strip (translated_text s) in
  let tgt_full := strip (target_lang s) in
  if truthy text && truthy tgt_full then
    dest_code <- subscript LANG_NAME_TO_CODE tgt_full ;;
    speak_text text dest_code
  else show (info (lit "No translated text to speak.")).

Definition view_history : M E unit :=
  s <- get ;;
  match translation_history s with
  | [] => show (info (lit "No translations yet."))
  | _ :: _ =>
      show (subheader (lit "Translation History")) ;;
      for_each (translation_history s) (fun entry =>
        show (expander (lit "[" ++ timestamp entry ++ lit "] "
                        ++ src_lang entry ++ [32; 8594; 32]
                        ++ tgt_lang entry)) ;;
        show (write (lit "**Input:** " ++ inp entry)) ;;
        show (write (lit "**Output:** " ++ outp entry)) ;;
        show (write (lit "---")))
  end.

(** The operations a user can trigger. *)
Inductive operation : Type :=
| Speak
| Translate
| SpeakInput
| SpeakOutput
| Synthesize (text lang_code : str)
| ViewHistory.

Definition perform (op : operation) : M E unit :=
  match op with
  | Speak => listen_speech
  | Translate => translate_text
  | SpeakInput => speak_input
  | SpeakOutput => speak_output
  | Synthesize text lang_code => speak_text text lang_code
  | ViewHistory => view_history
  end.
End App.

(** ** Reading a trace *)

(** The library calls of a trace, in order. *)
Definition calls (t : list event) : list event :=
  filter (fun ev => match ev with Called _ => true | Shown _ => false end) t.

(** What was shown, in order. *)
Fixpoint shown (t : list event) : list widget :=
  match t with
  | [] => []
  | Shown w :: r => w :: shown r
  | Called _ :: r => shown r
  end.

Definition recognition_of {X} (c : call X) : option (AudioData * option str) :=
  match c with
  | recognize_google audio language => Some (audio, language)
  | _ => None
  end.

Definition capture_of {X} (c : call X) : option (Z * Z) :=
  match c with
  | listen timeout phrase_time_limit => Some (timeout, phrase_time_limit)
  | _ => None
  end.

Definition synthesis_of {X} (c : call X) : option (str * str) :=
  match c with
  | gTTS text lang => Some (text, lang)
  | write_to_fp text lang => Some (text, lang)
  | _ => None
  end.

Definition translation_of {X} (c : call X) : option (str * str * str) :=
  match c with
  | translate text src dest => Some (text, src, dest)
  | _ => None
  end.

Section Select.
Context {A : Type}.
Variable pick : forall X, call X -> option A.

(** The calls of one kind, with their arguments, in order. *)
Fixpoint select (t : list event) : list A :=
  match t with
  | [] => []
  | @Called X c :: r =>
      match pick c with
      | Some a => a :: select r
      | None => select r
      end
  | Shown _ :: r => select r
  end.
End Select.

(** Recognition requests (sample and language hint), capture requests
    (the two bounds), synthesis requests and translation requests. *)
Definition recognitions : list event -> list (AudioData * option str) :=
  select (@recognition_of).
Definition captures : list event -> list (Z * Z) := select (@capture_of).
Definition syntheses : list event -> list (str * str) :=
  select (@synthesis_of).
Definition translations : list event -> list (str * str * str) :=
  select (@translation_of).

Definition is_success (w : widget) : bool :=
  match w with success _ => true | _ => false end.

(** The operation ended with its success message. *)
Definition succeeded {E A} (r : run E A) : bool :=
  existsb is_success (shown (trace r)).

(** [l] is an initial segment of [l']. *)
Definition Prefix {A} (l l' : list A) : Prop := exists rest, l' = l ++ rest.

(** Running [m] keeps every entry the history already had, in place. *)
Definition keeps_history {E A} (m : M E A) : Prop :=
  forall s e,
    Prefix (translation_history s) (translation_history (session (m s e))).

(** No code of the table other than the sentinel itself has the sentinel
    as its base. *)
Definition concrete_codes (d : dict) : bool :=
  forallb (fun item : str * str =>
             str_eqb (fst item) (lit "auto")
             || negb (str_eqb (split0 hyphen (fst item)) (lit "auto")))
          d.

(** Some session, library tables and outside world change the bounds that
    [listen_speech] passes to the capture. *)
Definition capture_bounds_configurable : Prop :=
  exists (E : Type) (upstream : forall X, call X -> E -> (exn + X) * E)
         (LANGUAGES : dict) (title : str -> str)
         (s : session_state) (e : E) (bounds : Z * Z),
    In bounds (captures (trace (listen_speech upstream LANGUAGES title s e)))
    /\ bounds <> (10%Z, 25%Z).

(** ** A small concrete world, for running the program *)

Definition sample_LANGUAGES : dict :=
  [ (lit "en", lit "english"); (lit "fr", lit "french");
    (lit "iw", lit "hebrew"); (lit "he", lit "hebrew");
    (lit "te", lit "telugu"); (lit "zh-cn", lit "chinese (simplified)") ].

Definition sample_TTS_SUPPORTED : dict :=
  [ (lit "en", lit "English"); (lit "fr", lit "French");
    (lit "te", lit "Telugu") ].

(** The state of the sample world: everything works, nobody speaks, the
    recognizer refuses a language hint, or the synthesis service is down. *)
Inductive weather : Type := Fair | Silent | HintRefused | SynthesisDown.

Definition sample_upstream (X : Type) (c : call X) (e : weather)
  : (exn + X) * weather :=
  match c in call X return (exn + X) * weather with
  | Microphone => (inr tt, e)
  | adjust_for_ambient_noise _ => (inr tt, e)
  | listen _ _ =>
      match e with
      | Silent => (inl (WaitTimeoutError (lit "listening timed out")), e)
      | _ => (inr [82; 73; 70; 70], e)
      end
  | recognize_google _ None => (inr (lit "bonjour le monde"), e)
  | recognize_google _ (Some _) =>
      match e with
      | HintRefused => (inl (RequestError (lit "Bad Request")), e)
      | _ => (inr (lit "Bonjour le monde"), e)
      end
  | detect _ => (inr (lit "fr"), e)
  | translate _ _ _ =>
      (inr {| result_text := lit "hello world"; result_src := lit "fr" |}, e)
  | now_strftime _ => (inr (lit "2024-05-17 10:30:00"), e)
  | gTTS _ _ => (inr tt, e)
  | write_to_fp _ _ =>
      match e with
      | SynthesisDown => (inl (OtherException (lit "Failed to connect")), e)
      | _ => (inr [73; 68; 51], e)
      end
  end.

Definition sample_session (selected target text : string) : session_state :=
  {| input_lang := lit selected; target_lang := lit target;
     input_text := lit text; translated_text := [];
     detected_lang_code := lit "auto"; translation_history := [];
     audio_data := None; audio_lang := None |}.

(** ** More ways to read a run *)

Definition detection_of {X} (c : call X) : option str :=
  match c with
  | detect raw_text => Some raw_text
  | _ => None
  end.

(** Detection requests, with the text they were made on. *)
Definition detections : list event -> list str := select (@detection_of).

(** Running [m] leaves what [view] reads of the session as it was. *)
Definition preserves {E A T} (view : session_state -> T) (m : M E A) : Prop :=
  forall s e, view (session (m s e)) = view s.

(** [m] never ends with an exception. *)
Definition never_raises {E A} (m : M E A) : Prop :=
  forall s e, exists a, result (m s e) = Returned a.

(** The session apart from what recognition writes ([input_text],
    [detected_lang_code]), apart from what translation writes
    ([translated_text], [translation_history]) and apart from what
    synthesis writes ([audio_data], [audio_lang]). *)
Definition beside_recognition (s : session_state) :=
  (input_lang s, target_lang s, translated_text s, translation_history s,
   audio_data s, audio_lang s).

Definition beside_translation (s : session_state) :=
  (input_lang s, target_lang s, input_text s, detected_lang_code s,
   audio_data s, audio_lang s).

Definition beside_synthesis (s : session_state) :=
  (input_lang s, target_lang s, input_text s, translated_text s,
   detected_lang_code s, translation_history s).

(** What [view_history] shows for one entry. *)
Definition entry_widgets (entry : HistoryEntry) : list widget :=
  [ expander (lit "[" ++ timestamp entry ++ lit "] " ++ src_lang entry
              ++ [32; 8594; 32] ++ tgt_lang entry);
    write (lit "**Input:** " ++ inp entry);
    write (lit "**Output:** " ++ outp entry);
    write (lit "---") ].

(** ** A scripted world

    The libraries answer the calls one after the other as the script says:
    with their usual answer, or with an exception.  When the script is
    over, they answer as usual. *)
Inductive reply : Type :=
| Usual
| Fails (x : exn).

Definition scripted_upstream (X : Type) (c : call X) (script : list reply)
  : (exn + X) * list reply :=
  match script with
  | [] => (fst (sample_upstream c Fair), [])
  | Usual :: rest => (fst (sample_upstream c Fair), rest)
  | Fails x :: rest => (inl x, rest)
  end.
(** A world like the sample one, but whose detection answers with the
    sentinel. *)
Definition sentinel_upstream (X : Type) (c : call X) (e : weather)
  : (exn + X) * weather :=
  match c in call X return (exn + X) * weather with
  | Microphone => sample_upstream Microphone e
  | adjust_for_ambient_noise duration =>
      sample_upstream (adjust_for_ambient_noise duration) e
  | listen timeout phrase_time_limit =>
      sample_upstream (listen timeout phrase_time_limit) e
  | recognize_google audio language =>
      sample_upstream (recognize_google audio language) e
  | detect _ => (inr (lit "auto"), e)
  | translate text src dest => sample_upstream (translate text src dest) e
  | now_strftime format => sample_upstream (now_strftime format) e
  | gTTS text lang => sample_upstream (gTTS text lang) e
  | write_to_fp text lang => sample_upstream (write_to_fp text lang) e
  end.

(** Every run of [listen_speech] that ends with its success message leaves
    a code other than the sentinel in [detected_lang_code], whatever the
    libraries answer. *)
Definition resolved_code_always_concrete : Prop :=
  forall (E : Type) (upstream : forall X, call X -> E -> (exn + X) * E)
         (LANGUAGES : dict) (title : str -> str)
         (s : session_state) (e : E),
    let r := listen_speech upstream LANGUAGES title s e in
    succeeded r = true -> detected_lang_code (session r) <> lit "auto".

(** * Properties *)

(** ** Strings and dictionaries *)

Lemma str_eqb_refl (a : str) : str_eqb a a = true.
Proof.
  induction a as [|x a IH]; simpl; [reflexivity|].
  now rewrite N.eqb_refl, IH.
Qed.

Lemma str_eqb_eq (a b : str) : str_eqb a b = true <-> a = b.
Proof.
  split; [|intros ->; apply str_eqb_refl].
  revert b; induction a as [|x a IH]; intros [|y b]; simpl;
    try discriminate; [reflexivity|].
  intros H; apply andb_true_iff in H as [Hx Hr].
  apply N.eqb_eq in Hx; subst; f_equal; now apply IH.
Qed.

Lemma str_eqb_neq (a b : str) : str_eqb a b = false <-> a <> b.
Proof.
  rewrite <- str_eqb_eq; destruct (str_eqb a b); split; congruence.
Qed.

Lemma lstrip_blank (s : str) : blank s = true -> lstrip s = [].
Proof.
  induction s as [|c s IH]; simpl; [reflexivity|].
  intros H; apply andb_true_iff in H as [Hc Hs]; rewrite Hc; now apply IH.
Qed.

(** Stripping a string that is empty or all whitespace leaves nothing. *)
Lemma strip_blank (s : str) : blank s = true -> strip s = [].
Proof.
  intros H; unfold strip; now rewrite (lstrip_blank s H).
Qed.

Lemma lstrip_nil_blank (s : str) : lstrip s = [] -> blank s = true.
Proof.
  induction s as [|c s IH]; simpl; [reflexivity|].
  destruct (isspace c); [exact IH | discriminate].
Qed.

Lemma lstrip_head (s : str) :
  match lstrip s with [] => True | c :: _ => isspace c = false end.
Proof.
  induction s as [|c s IH]; simpl; [exact I|].
  destruct (isspace c) eqn:Hc; [exact IH | exact Hc].
Qed.

(** Conversely, only such strings strip to the empty string. *)
Lemma strip_nil_blank (s : str) : strip s = [] -> blank s = true.
Proof.
  unfold strip, rstrip; intros H.
  apply lstrip_nil_blank.
  apply (f_equal (@rev N)) in H; rewrite rev_involutive in H; simpl in H.
  apply lstrip_nil_blank in H.
  pose proof (lstrip_head s) as Hh.
  destruct (lstrip s) as [|c r]; [reflexivity|].
  unfold blank in H; rewrite forallb_forall in H.
  rewrite (H c) in Hh; [discriminate|].
  apply in_rev; rewrite rev_involutive; now left.
Qed.

(** A stripped string is true exactly when the string is not blank. *)
Lemma truthy_strip (s : str) : truthy (strip s) = negb (blank s).
Proof.
  destruct (strip s) as [|c r] eqn:Hs.
  - now rewrite (strip_nil_blank s Hs).
  - destruct (blank s) eqn:Hb; [|reflexivity].
    now rewrite (strip_blank s Hb) in Hs.
Qed.

Lemma split0_remap (lang_code : str) :
  split0 hyphen (remap lang_code) = split0 hyphen lang_code.
Proof.
  unfold remap; destruct (str_eqb lang_code (lit "te")) eqn:H;
    [|reflexivity].
  apply str_eqb_eq in H; subst; reflexivity.
Qed.

(** The base code carries no hyphen, and so no country suffix. *)
Lemma split0_no_sep (sep : N) (s : str) : ~ In sep (split0 sep s).
Proof.
  unfold split0; induction s as [|c s IH]; simpl; [tauto|].
  destruct (split sep s) as [h t]; simpl in *.
  destruct (N.eqb c sep) eqn:Hc; simpl; [tauto|].
  apply N.eqb_neq in Hc; intros [H|H]; [congruence | tauto].
Qed.

(** The base code is what stands before the first hyphen. *)
Lemma split0_prefix (sep : N) (s : str) : Prefix (split0 sep s) s.
Proof.
  unfold split0, Prefix; induction s as [|c s [rest IH]]; simpl;
    [now exists []|].
  destruct (split sep s) as [h t]; simpl in *.
  destruct (N.eqb c sep); simpl; [now exists (c :: s)|].
  exists rest; now rewrite <- IH.
Qed.

(** ** Running the monad, one step at a time *)

Section Steps.
Context {E : Type}.
Variable upstream : forall X, call X -> E -> (exn + X) * E.

Lemma bind_returned {A B} (m : M E A) (k : A -> M E B) s e a s' e' t :
  m s e = Run (Returned a) s' e' t ->
  bind m k s e = after t (k a s' e').
Proof. unfold bind; now intros ->. Qed.

Lemma bind_raised {A B} (m : M E A) (k : A -> M E B) s e x s' e' t :
  m s e = Run (Raised x) s' e' t ->
  bind m k s e = Run (Raised x) s' e' t.
Proof. unfold bind; now intros ->. Qed.

Lemma try_returned {A} (m : M E A) h s e (a : A) s' e' t :
  m s e = Run (Returned a) s' e' t ->
  try m h s e = Run (Returned a) s' e' t.
Proof. unfold try; now intros ->. Qed.

Lemma try_raised {A} (m : M E A) h s e x s' e' t :
  m s e = Run (Raised x) s' e' t ->
  try m h s e = after t (h x s' e').
Proof. unfold try; now intros ->. Qed.

Lemma invoke_returned {X} (c : call X) s e x e' :
  upstream c e = (inr x, e') ->
  invoke upstream c s e = Run (Returned x) s e' [Called c].
Proof. unfold invoke; now intros ->. Qed.

Lemma invoke_raised {X} (c : call X) s e x e' :
  upstream c e = (inl x, e') ->
  invoke upstream c s e = Run (Raised x) s e' [Called c].
Proof. unfold invoke; now intros ->. Qed.
End Steps.

(** Runs the statements that need nothing from the outside world. *)
Ltac run_pure :=
  cbv beta iota zeta
      delta [bind try after get modify show ret raise invoke subscript app];
  cbn [result session world trace].

(** ** What keeps the history *)

Lemma Prefix_refl {A} (l : list A) : Prefix l l.
Proof. exists []; now rewrite app_nil_r. Qed.

Lemma Prefix_trans {A} (l1 l2 l3 : list A) :
  Prefix l1 l2 -> Prefix l2 l3 -> Prefix l1 l3.
Proof.
  intros [r1 ->] [r2 ->]; exists (r1 ++ r2); now rewrite app_assoc.
Qed.

Section History.
Context {E : Type}.
Variable upstream : forall X, call X -> E -> (exn + X) * E.

Lemma keeps_ret {A} (a : A) : keeps_history (@ret E A a).
Proof. intros s e; apply Prefix_refl. Qed.

Lemma keeps_raise {A} (x : exn) : keeps_history (@raise E A x).
Proof. intros s e; apply Prefix_refl. Qed.

Lemma keeps_get : keeps_history (@get E).
Proof. intros s e; apply Prefix_refl. Qed.

Lemma keeps_show (w : widget) : keeps_history (@show E w).
Proof. intros s e; apply Prefix_refl. Qed.

Lemma keeps_invoke {X} (c : call X) : keeps_history (invoke upstream c).
Proof.
  intros s e; unfold invoke.
  destruct (upstream c e) as [[x|x] e']; apply Prefix_refl.
Qed.

Lemma keeps_modify (f : session_state -> session_state) :
  (forall s, Prefix (translation_history s) (translation_history (f s))) ->
  keeps_history (@modify E f).
Proof. intros Hf s e; apply Hf. Qed.

Lemma keeps_after {A} (t : list event) (r : run E A) :
  session (after t r) = session r.
Proof. now destruct r. Qed.

Lemma keeps_bind {A B} (m : M E A) (k : A -> M E B) :
  keeps_history m -> (forall a, keeps_history (k a)) ->
  keeps_history (bind m k).
Proof.
  intros Hm Hk s e; unfold bind.
  specialize (Hm s e).
  destruct (m s e) as [[a|x] s' e' t]; cbn [session] in *; [|exact Hm].
  rewrite keeps_after.
  eapply Prefix_trans; [exact Hm | apply Hk].
Qed.

Lemma keeps_try {A} (m : M E A) (h : exn -> M E A) :
  keeps_history m -> (forall x, keeps_history (h x)) ->
  keeps_history (try m h).
Proof.
  intros Hm Hh s e; unfold try.
  specialize (Hm s e).
  destruct (m s e) as [[a|x] s' e' t]; cbn [session] in *; [exact Hm|].
  rewrite keeps_after.
  eapply Prefix_trans; [exact Hm | apply Hh].
Qed.

Lemma keeps_for_each {A} (xs : list A) (body : A -> M E unit) :
  (forall x, keeps_history (body x)) -> keeps_history (for_each xs body).
Proof.
  intros Hb; induction xs as [|x xs IH]; simpl.
  - apply keeps_ret.
  - apply keeps_bind; [apply Hb | intros _; exact IH].
Qed.

Lemma keeps_set_input_text v s :
  Prefix (translation_history s) (translation_history (set_input_text v s)).
Proof. apply Prefix_refl. Qed.

Lemma keeps_set_translated_text v s :
  Prefix (translation_history s)
         (translation_history (set_translated_text v s)).
Proof. apply Prefix_refl. Qed.

Lemma keeps_set_detected_lang_code v s :
  Prefix (translation_history s)
         (translation_history (set_detected_lang_code v s)).
Proof. apply Prefix_refl. Qed.

Lemma keeps_set_audio b l s :
  Prefix (translation_history s) (translation_history (set_audio b l s)).
Proof. apply Prefix_refl. Qed.

Lemma keeps_history_append entry s :
  Prefix (translation_history s)
         (translation_history (history_append entry s)).
Proof. now exists [entry]. Qed.
End History.

Create HintDb history.

#[local] Hint Resolve keeps_ret keeps_raise keeps_get keeps_show keeps_invoke
  keeps_set_input_text keeps_set_translated_text keeps_set_detected_lang_code
  keeps_set_audio keeps_history_append Prefix_refl : history.

(** Walks down a piece of the program, one statement at a time. *)
Ltac keep_history :=
  repeat first
    [ solve [auto with history]
    | apply keeps_bind; [|intro]
    | apply keeps_try; [|intro]
    | apply keeps_for_each; intro
    | apply keeps_modify; intro
    | match goal with
      | |- keeps_history (if ?b then _ else _) => destruct b
      | |- keeps_history (match ?x with _ => _ end) => destruct x
      end ].

(** ** What a run leaves alone, and what cannot raise *)

Section Frames.
Context {E : Type} {T : Type}.
Variable upstream : forall X, call X -> E -> (exn + X) * E.
Variable view : session_state -> T.

Lemma preserves_ret {A} (a : A) : preserves view (@ret E A a).
Proof. intros s e; reflexivity. Qed.

Lemma preserves_raise {A} (x : exn) : preserves view (@raise E A x).
Proof. intros s e; reflexivity. Qed.

Lemma preserves_get : preserves view (@get E).
Proof. intros s e; reflexivity. Qed.

Lemma preserves_show (w : widget) : preserves view (@show E w).
Proof. intros s e; reflexivity. Qed.

Lemma preserves_invoke {X} (c : call X) : preserves view (invoke upstream c).
Proof.
  intros s e; unfold invoke.
  destruct (upstream c e) as [[x|x] e']; reflexivity.
Qed.

Lemma preserves_modify (f : session_state -> session_state) :
  (forall s, view (f s) = view s) -> preserves view (@modify E f).
Proof. intros Hf s e; apply Hf. Qed.

Lemma preserves_bind {A B} (m : M E A) (k : A -> M E B) :
  preserves view m -> (forall a, preserves view (k a)) ->
  preserves view (bind m k).
Proof.
  intros Hm Hk s e; unfold bind.
  specialize (Hm s e).
  destruct (m s e) as [[a|x] s' e' t]; cbn [session] in *; [|exact Hm].
  rewrite keeps_after, Hk; exact Hm.
Qed.

Lemma preserves_try {A} (m : M E A) (h : exn -> M E A) :
  preserves view m -> (forall x, preserves view (h x)) ->
  preserves view (try m h).
Proof.
  intros Hm Hh s e; unfold try.
  specialize (Hm s e).
  destruct (m s e) as [[a|x] s' e' t]; cbn [session] in *; [exact Hm|].
  rewrite keeps_after, Hh; exact Hm.
Qed.

Lemma preserves_for_each {A} (xs : list A) (body : A -> M E unit) :
  (forall x, preserves view (body x)) -> preserves view (for_each xs body).
Proof.
  intros Hb; induction xs as [|x xs IH]; simpl.
  - apply preserves_ret.
  - apply preserves_bind; [apply Hb | intros _; exact IH].
Qed.

Lemma result_after {A} (t : list event) (r : run E A) :
  result (after t r) = result r.
Proof. now destruct r. Qed.

Lemma never_raises_ret {A} (a : A) : never_raises (@ret E A a).
Proof. intros s e; now exists a. Qed.

Lemma never_raises_get : never_raises (@get E).
Proof. intros s e; now exists s. Qed.

Lemma never_raises_show (w : widget) : never_raises (@show E w).
Proof. intros s e; now exists tt. Qed.

Lemma never_raises_modify f : never_raises (@modify E f).
Proof. intros s e; now exists tt. Qed.

Lemma never_raises_bind {A B} (m : M E A) (k : A -> M E B) :
  never_raises m -> (forall a, never_raises (k a)) ->
  never_raises (bind m k).
Proof.
  intros Hm Hk s e; unfold bind.
  destruct (Hm s e) as [a Ha].
  destruct (m s e) as [[a'|x] s' e' t]; cbn [result] in Ha; [|discriminate].
  rewrite result_after; apply Hk.
Qed.

(** A [try] whose handlers cannot raise cannot raise, whatever it tries. *)
Lemma never_raises_try {A} (m : M E A) (h : exn -> M E A) :
  (forall x, never_raises (h x)) -> never_raises (try m h).
Proof.
  intros Hh s e; unfold try.
  destruct (m s e) as [[a|x] s' e' t]; [now exists a|].
  rewrite result_after; apply Hh.
Qed.

Lemma never_raises_for_each {A} (xs : list A) (body : A -> M E unit) :
  (forall x, never_raises (body x)) -> never_raises (for_each xs body).
Proof.
  intros Hb; induction xs as [|x xs IH]; simpl.
  - apply never_raises_ret.
  - apply never_raises_bind; [apply Hb | intros _; exact IH].
Qed.
End Frames.

Create HintDb frame.

#[local] Hint Resolve preserves_ret preserves_raise preserves_get
  preserves_show preserves_invoke never_raises_ret never_raises_get
  never_raises_show never_raises_modify : frame.

(** Walks down a piece of the program for [preserves]; what is left is
    what each assignment does to the view. *)
Ltac keep_view :=
  repeat first
    [ solve [auto with frame]
    | apply preserves_bind; [|intro]
    | apply preserves_try; [|intro]
    | apply preserves_for_each; intro
    | apply preserves_modify; intro; reflexivity
    | match goal with
      | |- preserves _ (if ?b then _ else _) => destruct b
      | |- preserves _ (match ?x with _ => _ end) => destruct x
      end ].

(** The same for [never_raises]. *)
Ltac cannot_raise :=
  repeat first
    [ solve [auto with frame]
    | apply never_raises_try; intro
    | apply never_raises_bind; [|intro]
    | apply never_raises_for_each; intro
    | match goal with
      | |- never_raises (if ?b then _ else _) => destruct b
      | |- never_raises (match ?x with _ => _ end) => destruct x
      end ].
(** Closes a case in which the success message was not shown. *)
Ltac no_success :=
  let H := fresh "H" in
  intros H;
  cbn [existsb shown is_success orb app EmptyInput NoTargetSelected
       TranslationServiceError SynthesisServiceError NoSpeechDetected
       UnintelligibleAudio ServiceUnavailable UnsupportedSynthesisLanguage]
    in H;
  discriminate H.

(** ** The operations *)

Section Properties.
Context {E : Type}.
Variable upstream : forall X, call X -> E -> (exn + X) * E.
Variable LANGUAGES : dict.
Variable TTS_SUPPORTED : dict.
Variable title : str -> str.

Local Abbreviation name_to_code := (LANG_NAME_TO_CODE LANGUAGES title).

(** C4.  When the input text is empty or whitespace only, [translate_text]
    reports EmptyInput and does nothing else: no library is called, and the
    session (history and translated text included) is what it was. *)
Theorem translate_text_empty_input (s : session_state) (e : E) :
  blank (input_text s) = true ->
  translate_text upstream LANGUAGES title s e
  = Run (Returned tt) s e [Shown EmptyInput].
Proof.
  intros Hblank.
  unfold translate_text; run_pure.
  rewrite (strip_blank _ Hblank); reflexivity.
Qed.

(** C10.  When the input text and the target name are not blank but the
    target name is not a key of [LANG_NAME_TO_CODE], [translate_text] ends
    with an uncaught [KeyError]: nothing is shown (neither NoTargetSelected
    nor TranslationServiceError), no library is called and the session is
    untouched. *)
Theorem translate_text_unknown_target (s : session_state) (e : E) :
  blank (input_text s) = false ->
  blank (target_lang s) = false ->
  dict_lookup name_to_code (strip (target_lang s)) = None ->
  translate_text upstream LANGUAGES title s e
  = Run (Raised (KeyError (strip (target_lang s)))) s e [].
Proof.
  intros Htext Htgt Hkey.
  unfold translate_text, subscript; run_pure.
  destruct (strip (input_text s)) as [|c r] eqn:Hs.
  { apply strip_nil_blank in Hs; congruence. }
  destruct (strip (target_lang s)) as [|c' r'] eqn:Ht.
  { apply strip_nil_blank in Ht; congruence. }
  cbn [truthy negb]; rewrite Hkey; reflexivity.
Qed.

(** A run of [translate_text] shows its success message only after the
    service answered its one request and the time was read, and has then
    left the history one entry longer, labelled from the answer. *)
Lemma translate_text_success_answered (s : session_state) (e : E) :
  let r := translate_text upstream LANGUAGES title s e in
  succeeded r = true ->
  exists dest_code res e1 now e2,
    dict_lookup name_to_code (strip (target_lang s)) = Some dest_code
    /\ upstream (translate (strip (input_text s)) (detected_lang_code s)
                           dest_code) e = (inr res, e1)
    /\ upstream (now_strftime (lit "%Y-%m-%d %H:%M:%S")) e1 = (inr now, e2)
    /\ translations (trace r)
       = [(strip (input_text s), detected_lang_code s, dest_code)]
    /\ translation_history (session r)
       = translation_history s
         ++ [ {| timestamp := now;
                 src_lang :=
                   title (dict_get LANGUAGES (result_src res) (lit "Unknown"));
                 tgt_lang :=
                   title (dict_get LANGUAGES dest_code (lit "Unknown"));
                 inp := strip (input_text s);
                 outp := result_text res |} ]
    /\ translated_text (session r) = result_text res.
Proof.
  intros r; subst r.
  unfold succeeded, translate_text, subscript; run_pure.
  destruct (truthy (strip (input_text s))); cbn [negb]; run_pure;
    [|no_success].
  destruct (truthy (strip (target_lang s))); cbn [negb]; run_pure;
    [|no_success].
  destruct (dict_lookup name_to_code (strip (target_lang s)))
    as [dest_code|]; run_pure; [|no_success].
  destruct (upstream (translate (strip (input_text s)) (detected_lang_code s)
                                dest_code) e) as [[x|res] e1] eqn:Htr;
    run_pure; [no_success|].
  destruct (upstream (now_strftime (lit "%Y-%m-%d %H:%M:%S")) e1)
    as [[x|now] e2] eqn:Hnow; run_pure; [no_success|].
  intros _; exists dest_code, res, e1, now, e2.
  repeat split; first [assumption | reflexivity].
Qed.

(** C5.  Whenever the translation service answers the request of
    [translate_text] with [res] (the input text and the target name are not
    blank, the target name has a code, and the time is read), the run is
    fully determined: it asks once, stores the translated text, appends
    exactly one entry to the history, whatever the history already holds,
    and shows its success message.  The source label of the entry is the
    name of [result_src res], the code the service reported; the code
    [detected_lang_code s] that was sent appears in the request only.
    Conversely the success message is shown in no other run. *)
Theorem translate_text_appends_record (s : session_state) (e : E) :
  let r := translate_text upstream LANGUAGES title s e in
  let src_lang_name res :=
    title (dict_get LANGUAGES (result_src res) (lit "Unknown")) in
  let tgt_lang_name dest_code :=
    title (dict_get LANGUAGES dest_code (lit "Unknown")) in
  let entry dest_code res now :=
    {| timestamp := now; src_lang := src_lang_name res;
       tgt_lang := tgt_lang_name dest_code;
       inp := strip (input_text s); outp := result_text res |} in
  (forall dest_code res e1 now e2,
      blank (input_text s) = false ->
      blank (target_lang s) = false ->
      dict_lookup name_to_code (strip (target_lang s)) = Some dest_code ->
      upstream (translate (strip (input_text s)) (detected_lang_code s)
                          dest_code) e = (inr res, e1) ->
      upstream (now_strftime (lit "%Y-%m-%d %H:%M:%S")) e1 = (inr now, e2) ->
      r = Run (Returned tt)
              (history_append (entry dest_code res now)
                 (set_translated_text (result_text res) s))
              e2
              [Called (translate (strip (input_text s))
                                 (detected_lang_code s) dest_code);
               Called (now_strftime (lit "%Y-%m-%d %H:%M:%S"));
               Shown (success (lit "Translated " ++ src_lang_name res
                               ++ [32; 8594; 32] ++ tgt_lang_name dest_code
                               ++ [32; 9989]))]
      /\ translation_history (session r)
         = translation_history s ++ [entry dest_code res now]
      /\ succeeded r = true)
  /\ (succeeded r = true ->
      exists dest_code res e1 now e2,
        dict_lookup name_to_code (strip (target_lang s)) = Some dest_code
        /\ upstream (translate (strip (input_text s)) (detected_lang_code s)
                               dest_code) e = (inr res, e1)
        /\ upstream (now_strftime (lit "%Y-%m-%d %H:%M:%S")) e1
           = (inr now, e2)
        /\ translation_history (session r)
           = translation_history s ++ [entry dest_code res now]).
Proof.
  intros r src_lang_name tgt_lang_name entry.
  subst r src_lang_name tgt_lang_name entry; cbv beta; split.
  - intros dest_code res e1 now e2 Htext Htgt Hdest Hres Hnow.
    assert (Hrun : translate_text upstream LANGUAGES title s e
                   = Run (Returned tt)
                         (history_append
                            {| timestamp := now;
                               src_lang :=
                                 title (dict_get LANGUAGES (result_src res)
                                          (lit "Unknown"));
                               tgt_lang :=
                                 title (dict_get LANGUAGES dest_code
                                          (lit "Unknown"));
                               inp := strip (input_text s);
                               outp := result_text res |}
                            (set_translated_text (result_text res) s))
                         e2
                         [Called (translate (strip (input_text s))
                                    (detected_lang_code s) dest_code);
                          Called (now_strftime (lit "%Y-%m-%d %H:%M:%S"));
                          Shown (success
                                   (lit "Translated "
                                    ++ title (dict_get LANGUAGES
                                                (result_src res)
                                                (lit "Unknown"))
                                    ++ [32; 8594; 32]
                                    ++ title (dict_get LANGUAGES dest_code
                                                (lit "Unknown"))
                                    ++ [32; 9989]))]).
    { unfold translate_text; run_pure.
      rewrite !truthy_strip, Htext, Htgt; cbn [negb]; run_pure.
      rewrite Hdest; run_pure; rewrite Hres; run_pure; rewrite Hnow.
      reflexivity. }
    rewrite Hrun; repeat split; reflexivity.
  - intros Hsuccess.
    destruct (translate_text_success_answered s e Hsuccess)
      as (dest_code & res & e1 & now & e2 & Hdest & Hres & Hnow & _
          & Hhistory & _).
    now exists dest_code, res, e1, now, e2.
Qed.

(** C6.  [speak_text] for a code that is not a key of [TTS_SUPPORTED] shows
    UnsupportedSynthesisLanguage and calls no library; for a supported code
    a failure of the synthesis library, when the request is built or when it
    is performed, is shown once as SynthesisServiceError and the request is
    not repeated.  The session is untouched in all three cases. *)
Theorem speak_text_dispatch (text lang_code : str) (s : session_state)
    (e : E) :
  let r := speak_text upstream LANGUAGES TTS_SUPPORTED text lang_code s e in
  (dict_mem TTS_SUPPORTED lang_code = false ->
     r = Run (Returned tt) s e
             [Shown (UnsupportedSynthesisLanguage LANGUAGES lang_code)]
     /\ syntheses (trace r) = [])
  /\ (dict_mem TTS_SUPPORTED lang_code = true ->
      (forall x e1,
          upstream (gTTS text lang_code) e = (inl x, e1) ->
          r = Run (Returned tt) s e1
                  [Called (gTTS text lang_code);
                   Shown (SynthesisServiceError x)])
      /\ (forall u e1 x e2,
             upstream (gTTS text lang_code) e = (inr u, e1) ->
             upstream (write_to_fp text lang_code) e1 = (inl x, e2) ->
             r = Run (Returned tt) s e2
                     [Called (gTTS text lang_code);
                      Called (write_to_fp text lang_code);
                      Shown (SynthesisServiceError x)])).
Proof.
  intros r; subst r; unfold speak_text; split; intros Hmem; rewrite Hmem.
  - split; reflexivity.
  - split.
    + intros x e1 Hbuild.
      run_pure; rewrite Hbuild; reflexivity.
    + intros u e1 x e2 Hbuild Hwrite.
      run_pure; rewrite Hbuild; run_pure.
      rewrite Hwrite; reflexivity.
Qed.


(** The Speak Input button does not reach [speak_text] for a code outside
    [TTS_SUPPORTED]: it shows its own notice and calls no library. *)
Lemma speak_input_unsupported (s : session_state) (e : E) :
  dict_mem TTS_SUPPORTED (detected_lang_code s) = false ->
  speak_input upstream LANGUAGES TTS_SUPPORTED s e
  = Run (Returned tt) s e
        [Shown (info (lit "No input text or unsupported language for TTS."))].
Proof.
  intros Hmem; unfold speak_input; run_pure.
  rewrite Hmem, andb_false_r; reflexivity.
Qed.
(** C7.  Whatever operation runs, however the libraries answer and however
    the operation ends, the history it leaves starts with the history it
    found: no entry is changed or removed. *)
Theorem history_append_only (op : operation) (s : session_state) (e : E) :
  Prefix (translation_history s)
         (translation_history
            (session (perform upstream LANGUAGES TTS_SUPPORTED title op s e))).
Proof.
  revert s e; change (keeps_history
                        (perform upstream LANGUAGES TTS_SUPPORTED title op)).
  destruct op; cbn [perform];
    unfold listen_speech, recognize, listen_speech_except, translate_text,
      speak_input, speak_output, speak_text, view_history, subscript;
    keep_history.
Qed.

(** *** Recognition *)

(** An explicit code is remapped and sent with one recognition request; the
    base of the code sent is stored when the request is answered. *)
Lemma recognize_explicit audio lang_code s e :
  lang_code <> lit "auto" ->
  recognize upstream audio lang_code s e
  = match upstream (recognize_google audio (Some (remap lang_code))) e with
    | (inr text, e') =>
        Run (Returned text)
            (set_detected_lang_code (split0 hyphen (remap lang_code)) s) e'
            [Called (recognize_google audio (Some (remap lang_code)))]
    | (inl x, e') =>
        Run (Raised x) s e'
            [Called (recognize_google audio (Some (remap lang_code)))]
    end.
Proof.
  intros Hcode; apply str_eqb_neq in Hcode.
  unfold recognize; rewrite Hcode; cbn [negb]; run_pure.
  destruct (upstream (recognize_google audio (Some (remap lang_code))) e)
    as [[x|text] e']; reflexivity.
Qed.

(** In auto mode the second recognition decides only which transcript is
    returned. *)
Lemma recognize_auto audio s e raw_text e1 code e2 :
  upstream (recognize_google audio None) e = (inr raw_text, e1) ->
  upstream (detect raw_text) e1 = (inr code, e2) ->
  recognize upstream audio (lit "auto") s e
  = Run (Returned
           match fst (upstream (recognize_google audio (Some code)) e2) with
           | inr text => text
           | inl _ => raw_text
           end)
        (set_detected_lang_code code s)
        (snd (upstream (recognize_google audio (Some code)) e2))
        [Called (recognize_google audio None); Called (detect raw_text);
         Called (recognize_google audio (Some code))].
Proof.
  intros Hraw Hdetect.
  unfold recognize; rewrite str_eqb_refl; cbn [negb]; run_pure.
  rewrite Hraw; run_pure; rewrite Hdetect; run_pure.
  cbn [detected_lang_code set_detected_lang_code].
  destruct (upstream (recognize_google audio (Some code)) e2)
    as [[x|text] e3]; reflexivity.
Qed.

Lemma recognize_auto_no_transcript audio s e x e1 :
  upstream (recognize_google audio None) e = (inl x, e1) ->
  recognize upstream audio (lit "auto") s e
  = Run (Raised x) s e1 [Called (recognize_google audio None)].
Proof.
  intros Hraw; unfold recognize; rewrite str_eqb_refl; cbn [negb]; run_pure.
  rewrite Hraw; reflexivity.
Qed.

Lemma recognize_auto_no_detection audio s e raw_text e1 x e2 :
  upstream (recognize_google audio None) e = (inr raw_text, e1) ->
  upstream (detect raw_text) e1 = (inl x, e2) ->
  recognize upstream audio (lit "auto") s e
  = Run (Raised x) s e2
        [Called (recognize_google audio None); Called (detect raw_text)].
Proof.
  intros Hraw Hdetect; unfold recognize; rewrite str_eqb_refl; cbn [negb].
  run_pure; rewrite Hraw; run_pure; rewrite Hdetect; reflexivity.
Qed.

(** Once the sample is captured, [listen_speech] is its recognition step
    between the status messages: a transcript is stored and announced, an
    exception is reported by the [except] clauses. *)
Lemma listen_speech_captured s e0 e1 e2 audio e3 :
  upstream Microphone e0 = (inr tt, e1) ->
  upstream (adjust_for_ambient_noise (3 # 2)) e1 = (inr tt, e2) ->
  upstream (listen 10 25) e2 = (inr audio, e3) ->
  let before :=
    [Called Microphone; Shown (info (lit "Calibrating mic... stay quiet"));
     Called (adjust_for_ambient_noise (3 # 2));
     Shown (info (lit "Listening... Speak now " ++ [127908]));
     Called (listen 10 25); Shown (info (lit "Recognizing speech..."))] in
  listen_speech upstream LANGUAGES title s e0
  = match recognize upstream audio
            (selected_lang_code LANGUAGES title s) s e3 with
    | Run (Returned text) s' e' t =>
        Run (Returned tt) (set_input_text text s') e'
            (before ++ t
             ++ [Shown (success
                          (lit "Speech captured ("
                           ++ title (dict_get LANGUAGES
                                       (detected_lang_code s')
                                       (lit "Unknown"))
                           ++ lit ") " ++ [9989]))])
    | Run (Raised x) s' e' t =>
        after (before ++ t) (listen_speech_except x s' e')
    end.
Proof.
  intros Hmic Hadjust Hlisten before; subst before.
  unfold listen_speech; run_pure.
  rewrite Hmic; run_pure; rewrite Hadjust; run_pure; rewrite Hlisten; run_pure.
  destruct (recognize upstream audio (selected_lang_code LANGUAGES title s)
              s e3) as [[text|x] s' e' t]; run_pure.
  - reflexivity.
  - destruct (listen_speech_except x s' e'); reflexivity.
Qed.

(** C1.  In auto mode, once the sample is captured, the first-pass
    transcript obtained and its language detected, [listen_speech] has
    asked for recognition without a hint, then for detection on the raw
    transcript, then for recognition with the detected code, and for
    nothing after that; it ends with its success message whatever the
    second recognition answered, stores the detected code, and stores the
    second transcript, or the raw one when the second recognition
    failed. *)
Theorem listen_speech_auto s e0 e1 e2 audio e3 raw_text e4 code e5 :
  selected_lang_code LANGUAGES title s = lit "auto" ->
  upstream Microphone e0 = (inr tt, e1) ->
  upstream (adjust_for_ambient_noise (3 # 2)) e1 = (inr tt, e2) ->
  upstream (listen 10 25) e2 = (inr audio, e3) ->
  upstream (recognize_google audio None) e3 = (inr raw_text, e4) ->
  upstream (detect raw_text) e4 = (inr code, e5) ->
  let second_pass := upstream (recognize_google audio (Some code)) e5 in
  let r := listen_speech upstream LANGUAGES title s e0 in
  calls (trace r)
  = [Called Microphone; Called (adjust_for_ambient_noise (3 # 2));
     Called (listen 10 25); Called (recognize_google audio None);
     Called (detect raw_text); Called (recognize_google audio (Some code))]
  /\ result r = Returned tt
  /\ succeeded r = true
  /\ detected_lang_code (session r) = code
  /\ input_text (session r)
     = match fst second_pass with
       | inr text => text
       | inl _ => raw_text
       end.
Proof.
  intros Hauto Hmic Hadjust Hlisten Hraw Hdetect second_pass r.
  subst second_pass r.
  rewrite (listen_speech_captured s Hmic Hadjust Hlisten), Hauto.
  rewrite (recognize_auto s Hraw Hdetect).
  repeat split; reflexivity.
Qed.

(** C2.  For an explicit selection (the code of the selected name is not
    the sentinel), once the sample is captured, [listen_speech] asks for
    recognition once, with the remapped code ([te-IN] for [te], the code
    itself otherwise).  The remap does not change the base code, the base
    code has no hyphen, and when the recognition answers, the base code of
    the selection is what the session stores, next to the transcript. *)
Theorem listen_speech_explicit s e0 e1 e2 audio e3 code :
  selected_lang_code LANGUAGES title s = code ->
  code <> lit "auto" ->
  upstream Microphone e0 = (inr tt, e1) ->
  upstream (adjust_for_ambient_noise (3 # 2)) e1 = (inr tt, e2) ->
  upstream (listen 10 25) e2 = (inr audio, e3) ->
  let r := listen_speech upstream LANGUAGES title s e0 in
  recognitions (trace r) = [(audio, Some (remap code))]
  /\ (code = lit "te" -> remap code = lit "te-IN")
  /\ (code <> lit "te" -> remap code = code)
  /\ split0 hyphen (remap code) = split0 hyphen code
  /\ ~ In hyphen (split0 hyphen code)
  /\ forall text e4,
       upstream (recognize_google audio (Some (remap code))) e3
       = (inr text, e4) ->
       succeeded r = true
       /\ detected_lang_code (session r) = split0 hyphen code
       /\ input_text (session r) = text.
Proof.
  intros Hsel Hcode Hmic Hadjust Hlisten r; subst r.
  rewrite (listen_speech_captured s Hmic Hadjust Hlisten), Hsel.
  rewrite (recognize_explicit audio s e3 Hcode).
  split; [|split; [|split; [|split; [|split]]]].
  - destruct (upstream (recognize_google audio (Some (remap code))) e3)
      as [[x|text] e4]; [destruct x|]; reflexivity.
  - intros ->; reflexivity.
  - intros Hte; apply str_eqb_neq in Hte; unfold remap; now rewrite Hte.
  - apply split0_remap.
  - apply split0_no_sep.
  - intros text e4 ->.
    cbv beta iota; cbn [session detected_lang_code set_input_text
                        set_detected_lang_code input_text].
    rewrite split0_remap; repeat split; reflexivity.
Qed.

(** *** The codes of the name table *)

Lemma dict_set_lookup d k v k' c :
  dict_lookup (dict_set d k v) k' = Some c ->
  c = v \/ dict_lookup d k' = Some c.
Proof.
  induction d as [|[k0 v0] d IH]; simpl.
  - destruct (str_eqb k k'); [intros [= <-]; now left | discriminate].
  - destruct (str_eqb k0 k) eqn:Hk; simpl.
    + destruct (str_eqb k0 k'); [intros [= <-]; now left | now right].
    + destruct (str_eqb k0 k'); [now right | exact IH].
Qed.

Lemma comprehension_codes (table acc : dict) k c :
  dict_lookup
    (fold_left (fun d (item : str * str) =>
                  dict_set d (title (snd item)) (fst item)) table acc) k
  = Some c ->
  In c (map fst table) \/ dict_lookup acc k = Some c.
Proof.
  revert acc; induction table as [|[code name] table IH]; intros acc; simpl.
  - now right.
  - intros H; apply IH in H as [H|H]; [now left; right|].
    apply dict_set_lookup in H as [->|H]; [now left; left | now right].
Qed.

(** Every code of [LANG_NAME_TO_CODE] is a code of [LANGUAGES]. *)
Lemma name_to_code_codes k c :
  dict_lookup name_to_code k = Some c -> In c (map fst LANGUAGES).
Proof.
  intros H; apply comprehension_codes in H as [H|H];
    [exact H | discriminate].
Qed.

(** The code of a selection is the sentinel or a code of [LANGUAGES]. *)
Lemma selected_lang_code_cases s :
  selected_lang_code LANGUAGES title s = lit "auto"
  \/ In (selected_lang_code LANGUAGES title s) (map fst LANGUAGES).
Proof.
  unfold selected_lang_code, dict_get.
  destruct (str_eqb (input_lang s) (lit "Auto Detect")); [now left|].
  destruct (dict_lookup name_to_code (input_lang s)) as [c|] eqn:Hc;
    [right; eapply name_to_code_codes; eassumption | now left].
Qed.

Lemma concrete_codes_base code :
  concrete_codes LANGUAGES = true ->
  In code (map fst LANGUAGES) ->
  code <> lit "auto" ->
  split0 hyphen code <> lit "auto".
Proof.
  unfold concrete_codes; rewrite forallb_forall.
  intros Hall Hin Hcode; apply in_map_iff in Hin as [[c n] [<- Hin]].
  specialize (Hall _ Hin); cbn [fst] in *.
  apply str_eqb_neq in Hcode; rewrite Hcode in Hall; cbn [orb] in Hall.
  apply str_eqb_neq; now destruct (str_eqb (split0 hyphen c) (lit "auto")).
Qed.

(** *** Capture *)

Lemma select_app {A} (pick : forall X, call X -> option A) t1 t2 :
  select pick (t1 ++ t2) = select pick t1 ++ select pick t2.
Proof.
  induction t1 as [|[X c|w] t1 IH]; simpl; [reflexivity| |exact IH].
  destruct (pick X c); simpl; now rewrite IH.
Qed.

Lemma recognize_no_capture audio lang_code s e :
  captures (trace (recognize upstream audio lang_code s e)) = [].
Proof.
  unfold recognize.
  destruct (negb (str_eqb lang_code (lit "auto"))); run_pure.
  - destruct (upstream (recognize_google audio (Some (remap lang_code))) e)
      as [[x|text] e1]; reflexivity.
  - destruct (upstream (recognize_google audio None) e)
      as [[x|raw_text] e1]; run_pure; [reflexivity|].
    destruct (upstream (detect raw_text) e1) as [[x|code] e2]; run_pure;
      [reflexivity|].
    cbn [detected_lang_code set_detected_lang_code].
    destruct (upstream (recognize_google audio (Some code)) e2)
      as [[x|text] e3]; reflexivity.
Qed.

(** The [except] clauses show one message, which is not the success
    message, and leave the session alone. *)
Lemma except_report x s (e : E) :
  exists w, listen_speech_except x s e = Run (Returned tt) s e [Shown w]
            /\ is_success w = false.
Proof. destruct x; eexists; split; reflexivity. Qed.

(** A run of [listen_speech] either captures a sample, or reports an
    exception without touching the session. *)
Lemma listen_speech_capture_cases s e0 :
  let r := listen_speech upstream LANGUAGES title s e0 in
  (exists e1 e2 audio e3,
      upstream Microphone e0 = (inr tt, e1)
      /\ upstream (adjust_for_ambient_noise (3 # 2)) e1 = (inr tt, e2)
      /\ upstream (listen 10 25) e2 = (inr audio, e3))
  \/ (session r = s /\ succeeded r = false
      /\ (captures (trace r) = [] \/ captures (trace r) = [(10%Z, 25%Z)])).
Proof.
  intros r; subst r.
  destruct (upstream Microphone e0) as [[x|[]] e1] eqn:Hmic.
  { right; unfold succeeded, listen_speech; run_pure; rewrite Hmic; run_pure.
    destruct (except_report x s e1) as (w & -> & Hw); cbn.
    rewrite Hw; repeat split; now left. }
  destruct (upstream (adjust_for_ambient_noise (3 # 2)) e1)
    as [[x|[]] e2] eqn:Hadjust.
  { right; unfold succeeded, listen_speech; run_pure; rewrite Hmic; run_pure.
    rewrite Hadjust; run_pure.
    destruct (except_report x s e2) as (w & -> & Hw); cbn.
    rewrite Hw; repeat split; now left. }
  destruct (upstream (listen 10 25) e2) as [[x|audio] e3] eqn:Hlisten.
  { right; unfold succeeded, listen_speech; run_pure; rewrite Hmic; run_pure.
    rewrite Hadjust; run_pure; rewrite Hlisten; run_pure.
    destruct (except_report x s e3) as (w & -> & Hw); cbn.
    rewrite Hw; repeat split; now right. }
  left; now exists e1, e2, audio, e3.
Qed.

(** Every capture that [listen_speech] requests has the bounds 10 and 25. *)
Lemma listen_speech_capture_bounds s e0 :
  let r := listen_speech upstream LANGUAGES title s e0 in
  captures (trace r) = [] \/ captures (trace r) = [(10%Z, 25%Z)].
Proof.
  intros r; subst r.
  destruct (listen_speech_capture_cases s e0)
    as [(e1 & e2 & audio & e3 & Hmic & Hadjust & Hlisten)|(_ & _ & H)];
    [|exact H].
  right; rewrite (listen_speech_captured s Hmic Hadjust Hlisten).
  pose proof (recognize_no_capture audio
                (selected_lang_code LANGUAGES title s) s e3) as Hrec.
  destruct (recognize upstream audio (selected_lang_code LANGUAGES title s)
              s e3) as [[text|x] s' e' t]; cbn [trace] in Hrec.
  - cbn [trace]; unfold captures in *.
    rewrite !select_app, Hrec; reflexivity.
  - destruct (except_report x s' e') as (w & -> & _); cbn [after trace].
    unfold captures in *; rewrite !select_app, Hrec; reflexivity.
Qed.

(** C3, as the program has it.  A run of [listen_speech] that ends with
    its success message has stored, for an explicit selection, the base of
    the selected code, which is not the sentinel as long as no code of
    [LANGUAGES] has the sentinel as its base; and in auto mode, fallback
    included, the very code that the detection answered on the raw
    transcript of the run, whatever that code is: the program stores the
    answer unchecked. *)
Theorem resolved_code_origin s e0 :
  let r := listen_speech upstream LANGUAGES title s e0 in
  let lang_code := selected_lang_code LANGUAGES title s in
  succeeded r = true ->
  (lang_code <> lit "auto" ->
   detected_lang_code (session r) = split0 hyphen lang_code
   /\ (concrete_codes LANGUAGES = true ->
       detected_lang_code (session r) <> lit "auto"))
  /\ (lang_code = lit "auto" ->
      exists e1 e2 audio e3 raw_text e4 code e5,
        upstream Microphone e0 = (inr tt, e1)
        /\ upstream (adjust_for_ambient_noise (3 # 2)) e1 = (inr tt, e2)
        /\ upstream (listen 10 25) e2 = (inr audio, e3)
        /\ upstream (recognize_google audio None) e3 = (inr raw_text, e4)
        /\ upstream (detect raw_text) e4 = (inr code, e5)
        /\ detected_lang_code (session r) = code).
Proof.
  intros r lang_code; subst r lang_code.
  destruct (listen_speech_capture_cases s e0)
    as [(e1 & e2 & audio & e3 & Hmic & Hadjust & Hlisten)|(_ & Hfail & _)];
    [|cbv zeta in Hfail; congruence].
  unfold succeeded; rewrite (listen_speech_captured s Hmic Hadjust Hlisten).
  destruct (str_eqb (selected_lang_code LANGUAGES title s) (lit "auto"))
    eqn:Hsel.
  - (* auto mode *)
    apply str_eqb_eq in Hsel; rewrite Hsel.
    destruct (upstream (recognize_google audio None) e3)
      as [[x|raw_text] e4] eqn:Hraw.
    { rewrite (recognize_auto_no_transcript s Hraw).
      destruct (except_report x s e4) as (w & -> & Hw); cbn; rewrite Hw.
      discriminate. }
    destruct (upstream (detect raw_text) e4) as [[x|code] e5] eqn:Hcode.
    { rewrite (recognize_auto_no_detection s Hraw Hcode).
      destruct (except_report x s e5) as (w & -> & Hw); cbn; rewrite Hw.
      discriminate. }
    rewrite (recognize_auto s Hraw Hcode).
    cbn [session detected_lang_code set_input_text set_detected_lang_code].
    intros _; split; [congruence|].
    intros _; exists e1, e2, audio, e3, raw_text, e4, code, e5.
    repeat split; assumption.
  - (* explicit selection *)
    apply str_eqb_neq in Hsel.
    rewrite (recognize_explicit audio s e3 Hsel).
    destruct (upstream (recognize_google audio
                (Some (remap (selected_lang_code LANGUAGES title s)))) e3)
      as [[x|text] e4].
    { destruct (except_report x s e4) as (w & -> & Hw); cbn; rewrite Hw.
      discriminate. }
    cbn [session detected_lang_code set_input_text set_detected_lang_code].
    rewrite split0_remap; intros _.
    split; [|congruence].
    intros _; split; [reflexivity|].
    intros Htable; apply concrete_codes_base; [exact Htable| |exact Hsel].
    destruct (selected_lang_code_cases s) as [H|H]; [congruence | exact H].
Qed.

(** C8.  When the capture ends with the wait-timeout exception,
    [listen_speech] reports NoSpeechDetected, asks nothing more of the
    libraries, and leaves the whole session (input text, translated text,
    detected code, history) as it found it. *)
Theorem listen_speech_no_speech s e0 e1 e2 msg e3 :
  upstream Microphone e0 = (inr tt, e1) ->
  upstream (adjust_for_ambient_noise (3 # 2)) e1 = (inr tt, e2) ->
  upstream (listen 10 25) e2 = (inl (WaitTimeoutError msg), e3) ->
  listen_speech upstream LANGUAGES title s e0
  = Run (Returned tt) s e3
        [Called Microphone; Shown (info (lit "Calibrating mic... stay quiet"));
         Called (adjust_for_ambient_noise (3 # 2));
         Shown (info (lit "Listening... Speak now " ++ [127908]));
         Called (listen 10 25); Shown NoSpeechDetected].
Proof.
  intros Hmic Hadjust Hlisten.
  unfold listen_speech; run_pure.
  rewrite Hmic; run_pure; rewrite Hadjust; run_pure; rewrite Hlisten.
  reflexivity.
Qed.

(** C9, as the program has it.  The capture is requested with two bounds,
    10 seconds of wait for speech to begin and 25 seconds of phrase, which
    are the same in every run, whatever the session and the tables; and a
    wait-timeout raised by the capture is reported as NoSpeechDetected. *)
Theorem capture_bounds_fixed s e0 :
  let r := listen_speech upstream LANGUAGES title s e0 in
  (forall bounds, In bounds (captures (trace r)) -> bounds = (10%Z, 25%Z))
  /\ (forall e1 e2 msg e3,
         upstream Microphone e0 = (inr tt, e1) ->
         upstream (adjust_for_ambient_noise (3 # 2)) e1 = (inr tt, e2) ->
         upstream (listen 10 25) e2 = (inl (WaitTimeoutError msg), e3) ->
         captures (trace r) = [(10%Z, 25%Z)]
         /\ shown (trace r)
            = [info (lit "Calibrating mic... stay quiet");
               info (lit "Listening... Speak now " ++ [127908]);
               NoSpeechDetected]).
Proof.
  intros r; subst r; split.
  - intros bounds Hin.
    destruct (listen_speech_capture_bounds s e0) as [H|H];
      cbv zeta in H; rewrite H in Hin; simpl in Hin; [tauto|].
    destruct Hin as [<-|[]]; reflexivity.
  - intros e1 e2 msg e3 Hmic Hadjust Hlisten.
    unfold listen_speech; run_pure.
    rewrite Hmic; run_pure; rewrite Hadjust; run_pure; rewrite Hlisten.
    split; reflexivity.
Qed.

(** *** What each operation leaves alone *)

(** Recognition writes [input_text] and [detected_lang_code] and nothing
    else: the selections, the translated text, the history and the audio
    are the same after any run of [listen_speech]. *)
Theorem listen_speech_frame (s : session_state) (e : E) :
  beside_recognition (session (listen_speech upstream LANGUAGES title s e))
  = beside_recognition s.
Proof.
  revert s e;
    change (preserves beside_recognition
              (listen_speech upstream LANGUAGES title)).
  unfold listen_speech, recognize, listen_speech_except; keep_view.
Qed.

(** Translation writes [translated_text] and the history and nothing else:
    the input text, the detected code, the selections and the audio are the
    same after any run of [translate_text]. *)
Theorem translate_text_frame (s : session_state) (e : E) :
  beside_translation (session (translate_text upstream LANGUAGES title s e))
  = beside_translation s.
Proof.
  revert s e;
    change (preserves beside_translation
              (translate_text upstream LANGUAGES title)).
  unfold translate_text, subscript; keep_view.
Qed.

(** Synthesis writes the audio and nothing else: [speak_text],
    [speak_input] and [speak_output] leave the texts, the detected code,
    the selections and the history as they were. *)
Theorem synthesis_frame (s : session_state) (e : E) :
  (forall text lang_code,
      beside_synthesis
        (session (speak_text upstream LANGUAGES TTS_SUPPORTED
                    text lang_code s e))
      = beside_synthesis s)
  /\ beside_synthesis
       (session (speak_input upstream LANGUAGES TTS_SUPPORTED s e))
     = beside_synthesis s
  /\ beside_synthesis
       (session (speak_output upstream LANGUAGES TTS_SUPPORTED title s e))
     = beside_synthesis s.
Proof.
  assert (Htext : forall text lang_code,
             preserves beside_synthesis
               (speak_text upstream LANGUAGES TTS_SUPPORTED text lang_code)).
  { intros text lang_code; unfold speak_text; keep_view. }
  split; [intros text lang_code; apply Htext|split].
  - revert s e;
      change (preserves beside_synthesis
                (speak_input upstream LANGUAGES TTS_SUPPORTED)).
    unfold speak_input; keep_view; apply Htext.
  - revert s e;
      change (preserves beside_synthesis
                (speak_output upstream LANGUAGES TTS_SUPPORTED title)).
    unfold speak_output, subscript; keep_view; apply Htext.
Qed.

(** *** Exceptions that escape *)

Lemma speak_text_never_raises text lang_code :
  never_raises (speak_text upstream LANGUAGES TTS_SUPPORTED text lang_code).
Proof. unfold speak_text; cannot_raise. Qed.

(** The only exception an operation lets through is the [KeyError] of a
    target name that [LANG_NAME_TO_CODE] does not have, in [translate_text]
    and in [speak_output]; it is raised before anything is called, shown or
    stored.  [listen_speech], [speak_text], [speak_input] and
    [view_history] always return. *)
Theorem uncaught_only_key_error (op : operation) (s : session_state)
    (e : E) (x : exn) :
  let r := perform upstream LANGUAGES TTS_SUPPORTED title op s e in
  result r = Raised x ->
  (op = Translate \/ op = SpeakOutput)
  /\ x = KeyError (strip (target_lang s))
  /\ dict_lookup name_to_code (strip (target_lang s)) = None
  /\ session r = s /\ world r = e /\ trace r = [].
Proof.
  intros r; subst r.
  assert (Hsafe : forall (m : M E unit),
             never_raises m -> result (m s e) = Raised x -> False).
  { intros m Hm H; destruct (Hm s e) as [a Ha]; congruence. }
  destruct op; cbn [perform]; intros Hraised.
  - exfalso; apply (Hsafe (listen_speech upstream LANGUAGES title));
      [|exact Hraised].
    unfold listen_speech, listen_speech_except; cannot_raise.
  - split; [now left|].
    revert Hraised; unfold translate_text, subscript; run_pure.
    destruct (truthy (strip (input_text s))); cbn [negb]; run_pure;
      [|discriminate].
    destruct (truthy (strip (target_lang s))); cbn [negb]; run_pure;
      [|discriminate].
    destruct (dict_lookup name_to_code (strip (target_lang s)))
      as [dest_code|]; run_pure.
    + destruct (upstream (translate (strip (input_text s))
                  (detected_lang_code s) dest_code) e) as [[x'|res] e1];
        run_pure; [discriminate|].
      destruct (upstream (now_strftime (lit "%Y-%m-%d %H:%M:%S")) e1)
        as [[x'|now] e2]; run_pure; discriminate.
    + intros [= <-]; repeat split.
  - exfalso;
      apply (Hsafe (speak_input upstream LANGUAGES TTS_SUPPORTED));
      [|exact Hraised].
    unfold speak_input; cannot_raise; apply speak_text_never_raises.
  - split; [now right|].
    revert Hraised; unfold speak_output, subscript; run_pure.
    destruct (truthy (strip (translated_text s)) &&
              truthy (strip (target_lang s))); run_pure; [|discriminate].
    destruct (dict_lookup name_to_code (strip (target_lang s)))
      as [dest_code|]; run_pure.
    + intros Hraised; exfalso.
      destruct (speak_text_never_raises (strip (translated_text s))
                  dest_code s e) as [a Ha].
      destruct (speak_text upstream LANGUAGES TTS_SUPPORTED
                  (strip (translated_text s)) dest_code s e)
        as [o s' e' t]; cbn [result] in *; congruence.
    + intros [= <-]; repeat split.
  - exfalso; apply (Hsafe _ (speak_text_never_raises text lang_code));
      exact Hraised.
  - exfalso; apply (Hsafe view_history); [|exact Hraised].
    unfold view_history; cannot_raise.
Qed.

(** *** Every way [listen_speech] can go *)

Lemma shown_app t1 t2 : shown (t1 ++ t2) = shown t1 ++ shown t2.
Proof.
  induction t1 as [|[X c|w] t1 IH]; simpl; [reflexivity|exact IH|].
  now rewrite IH.
Qed.

(** The five ways of the recognition step. *)
Lemma recognize_cases audio lang_code s e :
  let r := recognize upstream audio lang_code s e in
  let asked := recognize_google audio (Some (remap lang_code)) in
  (lang_code <> lit "auto"
   /\ exists x e', upstream asked e = (inl x, e')
                   /\ r = Run (Raised x) s e' [Called asked])
  \/ (lang_code <> lit "auto"
      /\ exists text e',
          upstream asked e = (inr text, e')
          /\ r = Run (Returned text)
                     (set_detected_lang_code
                        (split0 hyphen (remap lang_code)) s)
                     e' [Called asked])
  \/ (lang_code = lit "auto"
      /\ exists x e1,
          upstream (recognize_google audio None) e = (inl x, e1)
          /\ r = Run (Raised x) s e1 [Called (recognize_google audio None)])
  \/ (lang_code = lit "auto"
      /\ exists raw_text e1 x e2,
          upstream (recognize_google audio None) e = (inr raw_text, e1)
          /\ upstream (detect raw_text) e1 = (inl x, e2)
          /\ r = Run (Raised x) s e2
                     [Called (recognize_google audio None);
                      Called (detect raw_text)])
  \/ (lang_code = lit "auto"
      /\ exists raw_text e1 code e2 text e3,
          upstream (recognize_google audio None) e = (inr raw_text, e1)
          /\ upstream (detect raw_text) e1 = (inr code, e2)
          /\ r = Run (Returned text) (set_detected_lang_code code s) e3
                     [Called (recognize_google audio None);
                      Called (detect raw_text);
                      Called (recognize_google audio (Some code))]).
Proof.
  intros r asked; subst r asked.
  destruct (str_eqb lang_code (lit "auto")) eqn:Hsel.
  - apply str_eqb_eq in Hsel; subst lang_code.
    right; right.
    destruct (upstream (recognize_google audio None) e)
      as [[x|raw_text] e1] eqn:Hraw.
    { left; split; [reflexivity|]; exists x, e1; split; [reflexivity|].
      exact (recognize_auto_no_transcript s Hraw). }
    right.
    destruct (upstream (detect raw_text) e1) as [[x|code] e2] eqn:Hcode.
    { left; split; [reflexivity|]; exists raw_text, e1, x, e2.
      repeat split; try assumption.
      exact (recognize_auto_no_detection s Hraw Hcode). }
    right; split; [reflexivity|].
    eexists raw_text, e1, code, e2, _, _.
    repeat split; try eassumption.
    exact (recognize_auto s Hraw Hcode).
  - apply str_eqb_neq in Hsel.
    rewrite (recognize_explicit audio s e Hsel).
    destruct (upstream (recognize_google audio (Some (remap lang_code))) e)
      as [[x|text] e'] eqn:Hasked.
    + left; split; [exact Hsel|]; now exists x, e'.
    + right; left; split; [exact Hsel|]; now exists text, e'.
Qed.

(** When the capture fails, nothing is asked of the recognizer or of the
    detection and the [except] clauses report. *)
Lemma listen_speech_capture_outcome s e0 :
  (exists e1 e2 audio e3,
      upstream Microphone e0 = (inr tt, e1)
      /\ upstream (adjust_for_ambient_noise (3 # 2)) e1 = (inr tt, e2)
      /\ upstream (listen 10 25) e2 = (inr audio, e3))
  \/ (exists x e' t,
         listen_speech upstream LANGUAGES title s e0
         = after t (listen_speech_except x s e')
         /\ recognitions t = [] /\ detections t = []).
Proof.
  destruct (upstream Microphone e0) as [[x|[]] e1] eqn:Hmic.
  { right; exists x, e1, [Called Microphone]; split.
    - unfold listen_speech; run_pure; rewrite Hmic; run_pure.
      destruct (listen_speech_except x s e1); reflexivity.
    - split; reflexivity. }
  destruct (upstream (adjust_for_ambient_noise (3 # 2)) e1)
    as [[x|[]] e2] eqn:Hadjust.
  { right; exists x, e2.
    exists [Called Microphone;
            Shown (info (lit "Calibrating mic... stay quiet"));
            Called (adjust_for_ambient_noise (3 # 2))]; split.
    - unfold listen_speech; run_pure; rewrite Hmic; run_pure.
      rewrite Hadjust; run_pure.
      destruct (listen_speech_except x s e2); reflexivity.
    - split; reflexivity. }
  destruct (upstream (listen 10 25) e2) as [[x|audio] e3] eqn:Hlisten.
  { right; exists x, e3.
    exists [Called Microphone;
            Shown (info (lit "Calibrating mic... stay quiet"));
            Called (adjust_for_ambient_noise (3 # 2));
            Shown (info (lit "Listening... Speak now " ++ [127908]));
            Called (listen 10 25)]; split.
    - unfold listen_speech; run_pure; rewrite Hmic; run_pure.
      rewrite Hadjust; run_pure; rewrite Hlisten; run_pure.
      destruct (listen_speech_except x s e3); reflexivity.
    - split; reflexivity. }
  left; now exists e1, e2, audio, e3.
Qed.

(** A run of [listen_speech] that does not end with its success message
    has stored nothing: the whole session is what it was.  In particular a
    first-pass transcript is not kept when the detection fails. *)
Theorem listen_speech_failure_keeps_session (s : session_state) (e0 : E) :
  let r := listen_speech upstream LANGUAGES title s e0 in
  succeeded r = false -> session r = s.
Proof.
  intros r; subst r.
  destruct (listen_speech_capture_cases s e0)
    as [(e1 & e2 & audio & e3 & Hmic & Hadjust & Hlisten)|(Hs & _)];
    [|intros _; exact Hs].
  unfold succeeded; rewrite (listen_speech_captured s Hmic Hadjust Hlisten).
  destruct (recognize_cases audio (selected_lang_code LANGUAGES title s)
              s e3)
    as [(_ & x & e' & _ & ->)
       |[(_ & text & e' & _ & ->)
        |[(_ & x & e' & _ & ->)
         |[(_ & raw & e1' & x & e' & _ & _ & ->)
          |(_ & raw & e1' & code & e2' & text & e' & _ & _ & ->)]]]];
    try (destruct (except_report x s e') as (w & -> & _); reflexivity);
    cbn [trace]; rewrite !shown_app; cbn [shown app existsb is_success];
    rewrite ?orb_true_r; discriminate.
Qed.

(** No run of [listen_speech] asks for more than two recognitions and one
    detection. *)
Theorem listen_speech_request_budget (s : session_state) (e0 : E) :
  let r := listen_speech upstream LANGUAGES title s e0 in
  (List.length (recognitions (trace r)) <= 2)%nat
  /\ (List.length (detections (trace r)) <= 1)%nat.
Proof.
  intros r; subst r.
  destruct (listen_speech_capture_outcome s e0)
    as [(e1 & e2 & audio & e3 & Hmic & Hadjust & Hlisten)
       |(x & e' & t & -> & Hrec & Hdet)].
  2:{ destruct (except_report x s e') as (w & -> & _); cbn [after trace].
      unfold recognitions, detections in *.
      rewrite !select_app, Hrec, Hdet; cbn; split; repeat constructor. }
  rewrite (listen_speech_captured s Hmic Hadjust Hlisten).
  destruct (recognize_cases audio (selected_lang_code LANGUAGES title s)
              s e3)
    as [(_ & x & e' & _ & ->)
       |[(_ & text & e' & _ & ->)
        |[(_ & x & e' & _ & ->)
         |[(_ & raw & e1' & x & e' & _ & _ & ->)
          |(_ & raw & e1' & code & e2' & text & e' & _ & _ & ->)]]]];
    try (destruct (except_report x s e') as (w & -> & _));
    cbn; split; repeat constructor.
Qed.

(** When the first recognition request of a run (with the remapped code of
    an explicit selection, without a hint in auto mode) ends with an
    exception, nothing is stored, nothing more is asked, and one message
    is shown after the status messages, chosen by the class of the
    exception: wait-timeout, unintelligible audio, service unavailable, or
    the text of any other exception. *)
Theorem recognition_failure_report s e0 e1 e2 audio e3 x e4 :
  upstream Microphone e0 = (inr tt, e1) ->
  upstream (adjust_for_ambient_noise (3 # 2)) e1 = (inr tt, e2) ->
  upstream (listen 10 25) e2 = (inr audio, e3) ->
  let lang_code := selected_lang_code LANGUAGES title s in
  let hint :=
    if str_eqb lang_code (lit "auto") then None
    else Some (remap lang_code) in
  upstream (recognize_google audio hint) e3 = (inl x, e4) ->
  listen_speech upstream LANGUAGES title s e0
  = Run (Returned tt) s e4
        [Called Microphone; Shown (info (lit "Calibrating mic... stay quiet"));
         Called (adjust_for_ambient_noise (3 # 2));
         Shown (info (lit "Listening... Speak now " ++ [127908]));
         Called (listen 10 25); Shown (info (lit "Recognizing speech..."));
         Called (recognize_google audio hint);
         Shown match x with
               | WaitTimeoutError _ => NoSpeechDetected
               | UnknownValueError _ => UnintelligibleAudio
               | RequestError _ => ServiceUnavailable
               | _ => error_exc (lit "Error: ") x
               end].
Proof.
  intros Hmic Hadjust Hlisten lang_code hint; subst lang_code hint.
  rewrite (listen_speech_captured s Hmic Hadjust Hlisten).
  destruct (str_eqb (selected_lang_code LANGUAGES title s) (lit "auto"))
    eqn:Hsel; intros Hasked.
  - apply str_eqb_eq in Hsel; rewrite Hsel.
    rewrite (recognize_auto_no_transcript s Hasked).
    destruct x; reflexivity.
  - apply str_eqb_neq in Hsel.
    rewrite (recognize_explicit audio s e3 Hsel), Hasked.
    destruct x; reflexivity.
Qed.

(** In auto mode, when the detection raises, the first-pass transcript is
    dropped: the session is what it was, the run does not succeed, and the
    second recognition is never asked for. *)
Theorem detection_failure_drops_transcript
    s e0 e1 e2 audio e3 raw_text e4 x e5 :
  selected_lang_code LANGUAGES title s = lit "auto" ->
  upstream Microphone e0 = (inr tt, e1) ->
  upstream (adjust_for_ambient_noise (3 # 2)) e1 = (inr tt, e2) ->
  upstream (listen 10 25) e2 = (inr audio, e3) ->
  upstream (recognize_google audio None) e3 = (inr raw_text, e4) ->
  upstream (detect raw_text) e4 = (inl x, e5) ->
  let r := listen_speech upstream LANGUAGES title s e0 in
  session r = s
  /\ succeeded r = false
  /\ recognitions (trace r) = [(audio, None)]
  /\ detections (trace r) = [raw_text].
Proof.
  intros Hauto Hmic Hadjust Hlisten Hraw Hdetect r; subst r.
  unfold succeeded.
  rewrite (listen_speech_captured s Hmic Hadjust Hlisten), Hauto.
  rewrite (recognize_auto_no_detection s Hraw Hdetect).
  destruct x; repeat split; reflexivity.
Qed.

(** A selected name that [LANG_NAME_TO_CODE] does not have is treated as
    Auto Detect: the first recognition request carries no language hint. *)
Theorem unknown_selection_is_auto s e0 e1 e2 audio e3 :
  dict_lookup name_to_code (input_lang s) = None ->
  upstream Microphone e0 = (inr tt, e1) ->
  upstream (adjust_for_ambient_noise (3 # 2)) e1 = (inr tt, e2) ->
  upstream (listen 10 25) e2 = (inr audio, e3) ->
  let r := listen_speech upstream LANGUAGES title s e0 in
  selected_lang_code LANGUAGES title s = lit "auto"
  /\ hd_error (recognitions (trace r)) = Some (audio, None).
Proof.
  intros Hname Hmic Hadjust Hlisten r; subst r.
  assert (Hauto : selected_lang_code LANGUAGES title s = lit "auto").
  { unfold selected_lang_code, dict_get; rewrite Hname.
    now destruct (str_eqb (input_lang s) (lit "Auto Detect")). }
  split; [exact Hauto|].
  rewrite (listen_speech_captured s Hmic Hadjust Hlisten), Hauto.
  destruct (recognize_cases audio (lit "auto") s e3)
    as [(Hne & _)
       |[(Hne & _)
        |[(_ & x & e' & _ & ->)
         |[(_ & raw & e1' & x & e' & _ & _ & ->)
          |(_ & raw & e1' & code & e2' & text & e' & _ & _ & ->)]]]];
    try (now elim Hne);
    try (destruct (except_report x s e') as (w & -> & _)); reflexivity.
Qed.

(** *** The other ways of [translate_text] *)

(** With some input text and a blank target name, [translate_text] reports
    NoTargetSelected and does nothing else. *)
Theorem translate_text_no_target (s : session_state) (e : E) :
  blank (input_text s) = false ->
  blank (target_lang s) = true ->
  translate_text upstream LANGUAGES title s e
  = Run (Returned tt) s e [Shown NoTargetSelected].
Proof.
  intros Htext Htgt.
  unfold translate_text; run_pure.
  rewrite !truthy_strip, Htext, Htgt; reflexivity.
Qed.

(** When the translation service raises, [translate_text] reports
    TranslationServiceError with that exception; the translated text and
    the history are what they were and the request is not repeated. *)
Theorem translate_text_service_error (s : session_state) (e : E)
    dest_code x e1 :
  blank (input_text s) = false ->
  blank (target_lang s) = false ->
  dict_lookup name_to_code (strip (target_lang s)) = Some dest_code ->
  upstream (translate (strip (input_text s)) (detected_lang_code s)
                      dest_code) e = (inl x, e1) ->
  translate_text upstream LANGUAGES title s e
  = Run (Returned tt) s e1
        [Called (translate (strip (input_text s)) (detected_lang_code s)
                           dest_code);
         Shown (TranslationServiceError x)].
Proof.
  intros Htext Htgt Hdest Hfail.
  unfold translate_text; run_pure.
  rewrite !truthy_strip, Htext, Htgt; cbn [negb]; run_pure.
  rewrite Hdest; run_pure; rewrite Hfail; reflexivity.
Qed.

(** No run of [translate_text] asks for more than one translation, and a
    run that does not end with its success message leaves the history as
    it was. *)
Theorem translate_text_no_entry_without_success (s : session_state)
    (e : E) :
  let r := translate_text upstream LANGUAGES title s e in
  (List.length (translations (trace r)) <= 1)%nat
  /\ (succeeded r = false ->
      translation_history (session r) = translation_history s).
Proof.
  intros r; subst r.
  unfold succeeded, translate_text; run_pure.
  destruct (truthy (strip (input_text s))); cbn [negb]; run_pure;
    [|split; [repeat constructor | reflexivity]].
  destruct (truthy (strip (target_lang s))); cbn [negb]; run_pure;
    [|split; [repeat constructor | reflexivity]].
  destruct (dict_lookup name_to_code (strip (target_lang s)))
    as [dest_code|]; run_pure;
    [|split; [repeat constructor | reflexivity]].
  destruct (upstream (translate (strip (input_text s)) (detected_lang_code s)
                                dest_code) e) as [[x|res] e1];
    run_pure; [split; [repeat constructor | reflexivity]|].
  destruct (upstream (now_strftime (lit "%Y-%m-%d %H:%M:%S")) e1)
    as [[x|now] e2]; run_pure;
    (split; [cbn; repeat constructor|]); [reflexivity|discriminate].
Qed.

(** *** The table of names *)

Lemma dict_set_same d k v : dict_lookup (dict_set d k v) k = Some v.
Proof.
  induction d as [|[k0 v0] d IH]; simpl.
  - now rewrite str_eqb_refl.
  - destruct (str_eqb k0 k) eqn:Hk; simpl; rewrite Hk; [reflexivity|exact IH].
Qed.

Lemma dict_set_other d k v k' :
  k' <> k -> dict_lookup (dict_set d k v) k' = dict_lookup d k'.
Proof.
  intros Hne; induction d as [|[k0 v0] d IH]; simpl.
  - destruct (str_eqb k k') eqn:Hk; [|reflexivity].
    apply str_eqb_eq in Hk; congruence.
  - destruct (str_eqb k0 k) eqn:Hk; simpl.
    + destruct (str_eqb k0 k') eqn:Hk'; [|reflexivity].
      apply str_eqb_eq in Hk, Hk'; congruence.
    + destruct (str_eqb k0 k'); [reflexivity|exact IH].
Qed.

Lemma dict_set_keys d k v k' :
  In k' (map fst (dict_set d k v)) <-> k' = k \/ In k' (map fst d).
Proof.
  induction d as [|[k0 v0] d IH]; simpl.
  - intuition.
  - destruct (str_eqb k0 k) eqn:Hk; simpl.
    + apply str_eqb_eq in Hk; subst; intuition.
    + rewrite IH; intuition.
Qed.

Lemma dict_set_NoDup d k v :
  NoDup (map fst d) -> NoDup (map fst (dict_set d k v)).
Proof.
  induction d as [|[k0 v0] d IH]; simpl; intros Hd.
  - constructor; [tauto|constructor].
  - inversion Hd as [|? ? Hnotin Hrest]; subst.
    destruct (str_eqb k0 k) eqn:Hk; simpl; [now constructor|].
    constructor; [|now apply IH].
    rewrite dict_set_keys; intros [->|Hin]; [|tauto].
    now rewrite str_eqb_refl in Hk.
Qed.

Lemma dict_lookup_key d k :
  In k (map fst d) <-> exists v, dict_lookup d k = Some v.
Proof.
  induction d as [|[k0 v0] d IH]; simpl.
  - split; [tauto|intros [v Hv]; discriminate].
  - destruct (str_eqb k0 k) eqn:Hk.
    + apply str_eqb_eq in Hk; split; [now exists v0 | now left].
    + apply str_eqb_neq in Hk; rewrite <- IH; intuition.
Qed.

(** The names one can select are the titled names of [LANGUAGES], each of
    them once. *)
Theorem name_table_keys :
  NoDup (map fst (LANG_NAME_TO_CODE LANGUAGES title))
  /\ forall k, In k (map fst (LANG_NAME_TO_CODE LANGUAGES title))
               <-> exists code name, In (code, name) LANGUAGES
                                     /\ title name = k.
Proof.
  unfold LANG_NAME_TO_CODE.
  assert (H : forall table acc,
             NoDup (map fst acc) ->
             let d := fold_left (fun d (item : str * str) =>
                                   dict_set d (title (snd item)) (fst item))
                                table acc in
             NoDup (map fst d)
             /\ forall k, In k (map fst d)
                          <-> In k (map fst acc)
                              \/ exists code name, In (code, name) table
                                                   /\ title name = k).
  { induction table as [|[code name] table IH]; intros acc Hacc; simpl.
    - split; [exact Hacc|]; intros k; split; [now left|].
      intros [H|(c & n & [] & _)]; exact H.
    - destruct (IH (dict_set acc (title name) code)
                  (dict_set_NoDup acc (title name) code Hacc))
        as [Hnodup Hkeys].
      split; [exact Hnodup|]; intros k; rewrite Hkeys, dict_set_keys.
      split.
      + intros [[->|Hin]|(c & n & Hin & Hk)].
        * right; exists code, name; split; [now left|reflexivity].
        * now left.
        * right; exists c, n; split; [now right|exact Hk].
      + intros [Hin|(c & n & [[= -> ->]|Hin] & Hk)].
        * left; now right.
        * left; left; now symmetry.
        * right; now exists c, n. }
  destruct (H LANGUAGES [] (NoDup_nil _)) as [Hnodup Hkeys].
  split; [exact Hnodup|]; intros k; rewrite Hkeys; simpl; tauto.
Qed.

Lemma comprehension_skips (table acc : dict) k :
  (forall code name, In (code, name) table -> title name <> k) ->
  dict_lookup
    (fold_left (fun d (item : str * str) =>
                  dict_set d (title (snd item)) (fst item)) table acc) k
  = dict_lookup acc k.
Proof.
  revert acc; induction table as [|[code name] table IH]; intros acc Hskip;
    simpl; [reflexivity|].
  rewrite IH; [|intros c n Hin; apply (Hskip c n); now right].
  apply dict_set_other; intros ->; apply (Hskip code name); [now left|].
  reflexivity.
Qed.

(** When several codes of [LANGUAGES] have the same titled name, the name
    selects the last of them. *)
Theorem name_table_last_wins before code name rest :
  LANGUAGES = before ++ (code, name) :: rest ->
  (forall c n, In (c, n) rest -> title n <> title name) ->
  dict_lookup name_to_code (title name) = Some code.
Proof.
  intros Hsplit Hlast; unfold LANG_NAME_TO_CODE; rewrite Hsplit.
  rewrite fold_left_app; simpl.
  rewrite (comprehension_skips _ _ Hlast).
  apply dict_set_same.
Qed.

(** A target name taken from the table (as the selection box offers them)
    and with no blank around it never makes [translate_text] or
    [speak_output] raise. *)
Theorem listed_target_never_raises (s : session_state) (e : E) :
  In (target_lang s) (map fst name_to_code) ->
  strip (target_lang s) = target_lang s ->
  result (translate_text upstream LANGUAGES title s e) = Returned tt
  /\ result (speak_output upstream LANGUAGES TTS_SUPPORTED title s e)
     = Returned tt.
Proof.
  intros Hlisted Hstrip.
  apply dict_lookup_key in Hlisted as [dest_code Hdest].
  rewrite <- Hstrip in Hdest.
  split.
  - unfold translate_text; run_pure.
    destruct (truthy (strip (input_text s))); cbn [negb]; run_pure;
      [|reflexivity].
    destruct (truthy (strip (target_lang s))); cbn [negb]; run_pure;
      [|reflexivity].
    rewrite Hdest; run_pure.
    destruct (upstream (translate (strip (input_text s))
                (detected_lang_code s) dest_code) e) as [[x'|res] e1];
      run_pure; [reflexivity|].
    destruct (upstream (now_strftime (lit "%Y-%m-%d %H:%M:%S")) e1)
      as [[x'|now] e2]; reflexivity.
  - unfold speak_output; run_pure.
    destruct (truthy (strip (translated_text s)) &&
              truthy (strip (target_lang s))); run_pure; [|reflexivity].
    rewrite Hdest; run_pure.
    destruct (speak_text_never_raises (strip (translated_text s))
                dest_code s e) as [[] Ha].
    destruct (speak_text upstream LANGUAGES TTS_SUPPORTED
                (strip (translated_text s)) dest_code s e)
      as [o s' e' t]; exact Ha.
Qed.

(** *** Synthesis *)

(** For a supported code, when the request is built and performed,
    [speak_text] stores the audio with its language and shows nothing. *)
Theorem speak_text_stores_audio text lang_code s e u e1 audio_buffer e2 :
  dict_mem TTS_SUPPORTED lang_code = true ->
  upstream (gTTS text lang_code) e = (inr u, e1) ->
  upstream (write_to_fp text lang_code) e1 = (inr audio_buffer, e2) ->
  speak_text upstream LANGUAGES TTS_SUPPORTED text lang_code s e
  = Run (Returned tt) (set_audio audio_buffer lang_code s) e2
        [Called (gTTS text lang_code); Called (write_to_fp text lang_code)].
Proof.
  intros Hmem Hbuild Hwrite.
  unfold speak_text; rewrite Hmem; run_pure.
  rewrite Hbuild; run_pure; rewrite Hwrite; reflexivity.
Qed.

(** The three ways of [speak_text] on a supported code. *)
Lemma speak_text_supported_cases text lang_code s e :
  dict_mem TTS_SUPPORTED lang_code = true ->
  let r := speak_text upstream LANGUAGES TTS_SUPPORTED text lang_code s e in
  (exists x e1,
      r = Run (Returned tt) s e1
              [Called (gTTS text lang_code); Shown (SynthesisServiceError x)])
  \/ (exists x e2,
         r = Run (Returned tt) s e2
                 [Called (gTTS text lang_code);
                  Called (write_to_fp text lang_code);
                  Shown (SynthesisServiceError x)])
  \/ (exists audio_buffer e2,
         r = Run (Returned tt) (set_audio audio_buffer lang_code s) e2
                 [Called (gTTS text lang_code);
                  Called (write_to_fp text lang_code)]).
Proof.
  intros Hmem r; subst r.
  unfold speak_text; rewrite Hmem; run_pure.
  destruct (upstream (gTTS text lang_code) e) as [[x|u] e1]; run_pure.
  { left; now exists x, e1. }
  destruct (upstream (write_to_fp text lang_code) e1) as [[x|b] e2];
    run_pure.
  - right; left; now exists x, e2.
  - right; right; now exists b, e2.
Qed.

(** [speak_input] synthesizes nothing but the stripped input text in the
    detected language, and never shows a warning: it checks the language
    itself, so the unsupported-language warning of [speak_text] cannot
    appear. *)
Theorem speak_input_requests (s : session_state) (e : E) :
  let r := speak_input upstream LANGUAGES TTS_SUPPORTED s e in
  (forall request, In request (syntheses (trace r)) ->
                   request = (strip (input_text s), detected_lang_code s))
  /\ (forall m, ~ In (warning m) (shown (trace r))).
Proof.
  intros r; subst r; unfold speak_input; run_pure.
  destruct (truthy (strip (input_text s))); cbn [andb]; run_pure.
  2:{ split; [intros request []|intros m [H|[]]; discriminate]. }
  destruct (dict_mem TTS_SUPPORTED (detected_lang_code s)) eqn:Hmem; run_pure.
  2:{ split; [intros request []|intros m [H|[]]; discriminate]. }
  destruct (@speak_text_supported_cases (strip (input_text s))
              (detected_lang_code s) s e Hmem)
    as [(x & e1 & ->)|[(x & e2 & ->)|(b & e2 & ->)]]; cbn.
  - split; [intros request [<-|[]]; reflexivity|].
    intros m [H|[]]; discriminate.
  - split; [intros request [<-|[<-|[]]]; reflexivity|].
    intros m [H|[]]; discriminate.
  - split; [intros request [<-|[<-|[]]]; reflexivity|].
    intros m [].
Qed.

(** With nothing to say ([input_text] blank), [speak_input] shows its
    notice and does nothing else. *)
Theorem speak_input_blank (s : session_state) (e : E) :
  blank (input_text s) = true ->
  speak_input upstream LANGUAGES TTS_SUPPORTED s e
  = Run (Returned tt) s e
        [Shown (info (lit "No input text or unsupported language for TTS."))].
Proof.
  intros Hblank; unfold speak_input; run_pure.
  rewrite truthy_strip, Hblank; reflexivity.
Qed.

(** With no translated text, or no target name, [speak_output] shows its
    notice and does nothing else (the table is not even consulted). *)
Theorem speak_output_blank (s : session_state) (e : E) :
  blank (translated_text s) = true \/ blank (target_lang s) = true ->
  speak_output upstream LANGUAGES TTS_SUPPORTED title s e
  = Run (Returned tt) s e [Shown (info (lit "No translated text to speak."))].
Proof.
  intros Hblank; unfold speak_output; run_pure.
  rewrite !truthy_strip.
  destruct Hblank as [-> | ->]; [|rewrite andb_false_r]; reflexivity.
Qed.

(** [speak_output] speaks the stripped translated text in the code of the
    target name: it does what [speak_text] does on them. *)
Theorem speak_output_target_code (s : session_state) (e : E) dest_code :
  blank (translated_text s) = false ->
  blank (target_lang s) = false ->
  dict_lookup name_to_code (strip (target_lang s)) = Some dest_code ->
  speak_output upstream LANGUAGES TTS_SUPPORTED title s e
  = speak_text upstream LANGUAGES TTS_SUPPORTED
      (strip (translated_text s)) dest_code s e.
Proof.
  intros Htext Htgt Hdest; unfold speak_output; run_pure.
  rewrite !truthy_strip, Htext, Htgt; cbn [negb andb]; run_pure.
  rewrite Hdest; run_pure.
  destruct (speak_text upstream LANGUAGES TTS_SUPPORTED
              (strip (translated_text s)) dest_code s e); reflexivity.
Qed.

(** *** The history on the page *)

Lemma for_each_shows {A} (widgets : A -> list widget)
    (body : A -> M E unit) (xs : list A) s (e : E) :
  (forall x s e, body x s e = Run (Returned tt) s e (map Shown (widgets x))) ->
  for_each xs body s e
  = Run (Returned tt) s e (map Shown (flat_map widgets xs)).
Proof.
  intros Hbody; induction xs as [|x xs IH]; [reflexivity|].
  cbn [for_each flat_map]; unfold bind; rewrite Hbody, IH.
  cbn [after]; now rewrite map_app.
Qed.

(** [view_history] calls no library and leaves the session alone; it shows
    its notice when the history is empty, and otherwise the heading and
    then, for every entry in the order of the history, the entry's title
    line, input, output and rule. *)
Theorem view_history_shows (s : session_state) (e : E) :
  view_history s e
  = Run (Returned tt) s e
        (map Shown
           match translation_history s with
           | [] => [info (lit "No translations yet.")]
           | _ :: _ =>
               subheader (lit "Translation History")
               :: flat_map entry_widgets (translation_history s)
           end).
Proof.
  unfold view_history; unfold bind at 1; cbn [get].
  destruct (translation_history s) as [|entry entries]; [reflexivity|].
  unfold bind at 1; cbn [show].
  rewrite (for_each_shows entry_widgets); [reflexivity|].
  intros x s' e'; reflexivity.
Qed.

(** *** Recognition, then translation *)

(** After a run of [listen_speech] on an explicit selection that stored a
    transcript, [translate_text] asks for the translation of the stripped
    transcript from the base of the selected code (from [zh] when [zh-cn]
    is selected), whatever the service then answers. *)
Theorem listen_then_translate s e0 e1 e2 audio e3 code text e4 dest_code :
  selected_lang_code LANGUAGES title s = code ->
  code <> lit "auto" ->
  upstream Microphone e0 = (inr tt, e1) ->
  upstream (adjust_for_ambient_noise (3 # 2)) e1 = (inr tt, e2) ->
  upstream (listen 10 25) e2 = (inr audio, e3) ->
  upstream (recognize_google audio (Some (remap code))) e3 = (inr text, e4) ->
  blank text = false ->
  blank (target_lang s) = false ->
  dict_lookup name_to_code (strip (target_lang s)) = Some dest_code ->
  let heard := listen_speech upstream LANGUAGES title s e0 in
  translations
    (trace (translate_text upstream LANGUAGES title
              (session heard) (world heard)))
  = [(strip text, split0 hyphen code, dest_code)].
Proof.
  intros Hsel Hcode Hmic Hadjust Hlisten Hrec Htext Htgt Hdest heard.
  subst heard.
  rewrite (listen_speech_captured s Hmic Hadjust Hlisten), Hsel.
  rewrite (recognize_explicit audio s e3 Hcode), Hrec.
  cbn [session world]; rewrite split0_remap.
  unfold translate_text; run_pure.
  cbn [input_text target_lang detected_lang_code set_input_text
       set_detected_lang_code].
  rewrite !truthy_strip, Htext, Htgt; cbn [negb]; run_pure.
  rewrite Hdest; run_pure.
  cbn [input_text target_lang detected_lang_code set_input_text
       set_detected_lang_code].
  destruct (upstream (translate (strip text) (split0 hyphen code) dest_code)
              e4) as [[x|res] e5]; run_pure; [reflexivity|].
  destruct (upstream (now_strftime (lit "%Y-%m-%d %H:%M:%S")) e5)
    as [[x|now] e6]; reflexivity.
Qed.
End Properties.

(** ** Concrete runs *)

Example title_sample :
  title_ascii (lit "chinese (simplified)") = lit "Chinese (Simplified)".
Proof. reflexivity. Qed.

Example strip_sample : strip (lit "  te-IN  ") = lit "te-IN".
Proof. reflexivity. Qed.

Example split_sample :
  split hyphen (lit "zh-cn-x") = (lit "zh", [lit "cn"; lit "x"]).
Proof. reflexivity. Qed.

(** Two codes with one name: the later one is the code of the name. *)
Example name_table_sample :
  LANG_NAME_TO_CODE sample_LANGUAGES title_ascii
  = [ (lit "English", lit "en"); (lit "French", lit "fr");
      (lit "Hebrew", lit "he"); (lit "Telugu", lit "te");
      (lit "Chinese (Simplified)", lit "zh-cn") ].
Proof. reflexivity. Qed.

(** Auto mode with a recognizer that refuses the detected code: the raw
    transcript and the detected code are stored, and the run succeeds. *)
Lemma listen_speech_auto_witness :
  let s := sample_session "Auto Detect" "English" "" in
  let audio := [82; 73; 70; 70] in
  let r := listen_speech sample_upstream sample_LANGUAGES title_ascii s
             HintRefused in
  (selected_lang_code sample_LANGUAGES title_ascii s = lit "auto"
   /\ sample_upstream Microphone HintRefused = (inr tt, HintRefused)
   /\ sample_upstream (adjust_for_ambient_noise (3 # 2)) HintRefused
      = (inr tt, HintRefused)
   /\ sample_upstream (listen 10 25) HintRefused = (inr audio, HintRefused)
   /\ sample_upstream (recognize_google audio None) HintRefused
      = (inr (lit "bonjour le monde"), HintRefused)
   /\ sample_upstream (detect (lit "bonjour le monde")) HintRefused
      = (inr (lit "fr"), HintRefused))
  /\ calls (trace r)
     = [Called Microphone; Called (adjust_for_ambient_noise (3 # 2));
        Called (listen 10 25); Called (recognize_google audio None);
        Called (detect (lit "bonjour le monde"));
        Called (recognize_google audio (Some (lit "fr")))]
  /\ result r = Returned tt
  /\ succeeded r = true
  /\ detected_lang_code (session r) = lit "fr"
  /\ input_text (session r) = lit "bonjour le monde".
Proof.
  intros s audio r; split; [repeat split|].
  exact (listen_speech_auto sample_upstream sample_LANGUAGES title_ascii
           s HintRefused
           (e1 := HintRefused) (e2 := HintRefused) (audio := audio)
           (e3 := HintRefused) (raw_text := lit "bonjour le monde")
           (e4 := HintRefused) (code := lit "fr") (e5 := HintRefused)
           eq_refl eq_refl eq_refl eq_refl eq_refl eq_refl).
Defined.

(** Telugu selected: the recognizer is asked with [te-IN], and [te] is
    stored. *)
Lemma listen_speech_explicit_witness :
  let s := sample_session "Telugu" "English" "" in
  let audio := [82; 73; 70; 70] in
  let r := listen_speech sample_upstream sample_LANGUAGES title_ascii s
             Fair in
  (selected_lang_code sample_LANGUAGES title_ascii s = lit "te"
   /\ lit "te" <> lit "auto"
   /\ sample_upstream (listen 10 25) Fair = (inr audio, Fair))
  /\ recognitions (trace r) = [(audio, Some (lit "te-IN"))]
  /\ succeeded r = true
  /\ detected_lang_code (session r) = lit "te"
  /\ input_text (session r) = lit "Bonjour le monde".
Proof.
  intros s audio r.
  assert (Hcode : lit "te" <> lit "auto") by discriminate.
  split; [repeat split; exact Hcode|].
  destruct (listen_speech_explicit sample_upstream sample_LANGUAGES
              title_ascii s Fair
              (e1 := Fair) (e2 := Fair) (audio := audio) (e3 := Fair)
              (code := lit "te") eq_refl Hcode eq_refl eq_refl eq_refl)
    as (Hasked & _ & _ & _ & _ & Hstored).
  split; [exact Hasked|].
  exact (Hstored (lit "Bonjour le monde") Fair eq_refl).
Defined.

(** Telugu selected, and auto mode with a refused hint: the base of the
    code, and the code the detection answered. *)
Lemma resolved_code_origin_witness :
  let explicit := sample_session "Telugu" "English" "" in
  let auto := sample_session "Auto Detect" "English" "" in
  let r1 := listen_speech sample_upstream sample_LANGUAGES title_ascii
              explicit Fair in
  let r2 := listen_speech sample_upstream sample_LANGUAGES title_ascii
              auto HintRefused in
  (succeeded r1 = true
   /\ selected_lang_code sample_LANGUAGES title_ascii explicit = lit "te"
   /\ concrete_codes sample_LANGUAGES = true
   /\ succeeded r2 = true
   /\ selected_lang_code sample_LANGUAGES title_ascii auto = lit "auto")
  /\ detected_lang_code (session r1) = lit "te"
  /\ detected_lang_code (session r1) <> lit "auto"
  /\ detected_lang_code (session r2) = lit "fr".
Proof.
  intros explicit auto r1 r2; split; [repeat split|].
  assert (Hte : lit "te" <> lit "auto") by discriminate.
  destruct (proj1 (resolved_code_origin sample_upstream sample_LANGUAGES
                     title_ascii explicit Fair eq_refl) Hte)
    as [Hbase Hconcrete].
  destruct (proj2 (resolved_code_origin sample_upstream sample_LANGUAGES
                     title_ascii auto HintRefused eq_refl) eq_refl)
    as (e1 & e2 & audio & e3 & raw_text & e4 & code & e5
        & _ & _ & _ & _ & Hdetect & Hstored).
  injection Hdetect as <- _.
  split; [exact Hbase|]; split; [exact (Hconcrete eq_refl) | exact Hstored].
Defined.

(** With a detection that answers the sentinel, and a table whose codes
    are all concrete, an auto-mode run of [listen_speech] on the session
    [sample_session "Auto Detect" "English" ""] succeeds and stores the
    sentinel, whether the second recognition answers ([Fair]) or the raw
    transcript is kept ([HintRefused]). *)
Lemma resolved_code_can_be_sentinel : ~ resolved_code_always_concrete.
Proof.
  intros Hclaim.
  assert (Htable : concrete_codes sample_LANGUAGES = true) by reflexivity.
  assert (Hfallback :
            let r := listen_speech sentinel_upstream sample_LANGUAGES
                       title_ascii
                       (sample_session "Auto Detect" "English" "")
                       HintRefused in
            succeeded r = true
            /\ input_text (session r) = lit "bonjour le monde"
            /\ detected_lang_code (session r) = lit "auto")
    by (repeat split).
  apply (Hclaim weather sentinel_upstream sample_LANGUAGES title_ascii
           (sample_session "Auto Detect" "English" "") Fair);
    reflexivity.
Qed.

(** Blank input: nothing is translated and nothing is recorded. *)
Lemma translate_text_empty_input_witness :
  let s := sample_session "Auto Detect" "English" "   " in
  blank (input_text s) = true
  /\ translate_text sample_upstream sample_LANGUAGES title_ascii s Fair
     = Run (Returned tt) s Fair [Shown EmptyInput].
Proof.
  intros s; split; [reflexivity|].
  exact (translate_text_empty_input sample_upstream sample_LANGUAGES
           title_ascii s Fair eq_refl).
Defined.

(** A translation requested with the sentinel as its source and answered
    with [fr], in a session that already has an entry: one entry more, and
    it says French. *)
Lemma translate_text_appends_record_witness :
  let earlier :=
    {| timestamp := lit "2024-05-17 10:29:00"; src_lang := lit "English";
       tgt_lang := lit "French"; inp := lit "hello"; outp := lit "bonjour" |} in
  let s := history_append earlier
             (sample_session "Auto Detect" "English" " bonjour le monde ") in
  let r := translate_text sample_upstream sample_LANGUAGES title_ascii s
             Fair in
  (blank (input_text s) = false
   /\ blank (target_lang s) = false
   /\ dict_lookup (LANG_NAME_TO_CODE sample_LANGUAGES title_ascii)
        (strip (target_lang s)) = Some (lit "en")
   /\ sample_upstream (translate (lit "bonjour le monde") (lit "auto")
                                 (lit "en")) Fair
      = (inr {| result_text := lit "hello world"; result_src := lit "fr" |},
         Fair))
  /\ translations (trace r)
     = [(lit "bonjour le monde", lit "auto", lit "en")]
  /\ translation_history (session r)
     = [ earlier;
         {| timestamp := lit "2024-05-17 10:30:00";
            src_lang := lit "French"; tgt_lang := lit "English";
            inp := lit "bonjour le monde"; outp := lit "hello world" |} ]
  /\ succeeded r = true.
Proof.
  intros earlier s r; split; [repeat split|].
  destruct (proj1 (translate_text_appends_record sample_upstream
                     sample_LANGUAGES title_ascii s Fair)
              (lit "en")
              {| result_text := lit "hello world"; result_src := lit "fr" |}
              Fair (lit "2024-05-17 10:30:00") Fair
              eq_refl eq_refl eq_refl eq_refl eq_refl)
    as (Hrun & Hhistory & Hsuccess).
  split; [|split; [exact Hhistory | exact Hsuccess]].
  subst r; rewrite Hrun; reflexivity.
Defined.

(** An unsupported code, and a supported code while the service is down. *)
Lemma speak_text_dispatch_witness :
  (dict_mem sample_TTS_SUPPORTED (lit "zh") = false
   /\ speak_text sample_upstream sample_LANGUAGES sample_TTS_SUPPORTED
        (lit "hello") (lit "zh") (sample_session "" "" "") Fair
      = Run (Returned tt) (sample_session "" "" "") Fair
            [Shown (warning (lit "No TTS support for zh"))])
  /\ (dict_mem sample_TTS_SUPPORTED (lit "fr") = true
      /\ sample_upstream (write_to_fp (lit "bonjour") (lit "fr"))
           SynthesisDown
         = (inl (OtherException (lit "Failed to connect")), SynthesisDown)
      /\ speak_text sample_upstream sample_LANGUAGES sample_TTS_SUPPORTED
           (lit "bonjour") (lit "fr") (sample_session "" "" "") SynthesisDown
         = Run (Returned tt) (sample_session "" "" "") SynthesisDown
               [Called (gTTS (lit "bonjour") (lit "fr"));
                Called (write_to_fp (lit "bonjour") (lit "fr"));
                Shown (SynthesisServiceError
                         (OtherException (lit "Failed to connect")))]).
Proof.
  split.
  - split; [reflexivity|].
    exact (proj1 (proj1 (speak_text_dispatch sample_upstream
                           sample_LANGUAGES sample_TTS_SUPPORTED
                           (lit "hello") (lit "zh")
                           (sample_session "" "" "") Fair) eq_refl)).
  - split; [reflexivity|]; split; [reflexivity|].
    exact (proj2 (proj2 (speak_text_dispatch sample_upstream
                           sample_LANGUAGES sample_TTS_SUPPORTED
                           (lit "bonjour") (lit "fr")
                           (sample_session "" "" "") SynthesisDown) eq_refl)
             tt SynthesisDown (OtherException (lit "Failed to connect"))
             SynthesisDown eq_refl eq_refl).
Defined.

(** Nobody speaks: the session is what it was. *)
Lemma listen_speech_no_speech_witness :
  let s := sample_session "Auto Detect" "English" "earlier text" in
  let r := listen_speech sample_upstream sample_LANGUAGES title_ascii s
             Silent in
  sample_upstream (listen 10 25) Silent
  = (inl (WaitTimeoutError (lit "listening timed out")), Silent)
  /\ session r = s
  /\ shown (trace r)
     = [info (lit "Calibrating mic... stay quiet");
        info (lit "Listening... Speak now " ++ [127908]);
        NoSpeechDetected].
Proof.
  intros s r; split; [reflexivity|].
  subst r.
  rewrite (listen_speech_no_speech sample_upstream sample_LANGUAGES
             title_ascii s Silent
             (e1 := Silent) (e2 := Silent)
             (msg := lit "listening timed out") (e3 := Silent)
             eq_refl eq_refl eq_refl).
  split; reflexivity.
Defined.

(** The bounds of the capture cannot be changed: no session, table or
    outside world makes [listen_speech] ask for other bounds than 10 and
    25. *)
Lemma capture_bounds_not_configurable : ~ capture_bounds_configurable.
Proof.
  intros (E & upstream & LANGUAGES & title & s & e & bounds & Hin & Hother).
  destruct (listen_speech_capture_bounds upstream LANGUAGES title s e)
    as [H|H]; cbv zeta in H; rewrite H in Hin; simpl in Hin; [tauto|].
  destruct Hin as [<-|[]]; now apply Hother.
Qed.

(** The bounds of a run in which nobody speaks. *)
Lemma capture_bounds_fixed_witness :
  let s := sample_session "Telugu" "French" "" in
  let r := listen_speech sample_upstream sample_LANGUAGES title_ascii s
             Silent in
  sample_upstream (listen 10 25) Silent
  = (inl (WaitTimeoutError (lit "listening timed out")), Silent)
  /\ captures (trace r) = [(10%Z, 25%Z)]
  /\ shown (trace r)
     = [info (lit "Calibrating mic... stay quiet");
        info (lit "Listening... Speak now " ++ [127908]);
        NoSpeechDetected].
Proof.
  intros s r; split; [reflexivity|].
  exact (proj2 (capture_bounds_fixed sample_upstream sample_LANGUAGES
                  title_ascii s Silent)
           Silent Silent (lit "listening timed out") Silent
           eq_refl eq_refl eq_refl).
Defined.

(** A target name that the table does not have. *)
Lemma translate_text_unknown_target_witness :
  let s := sample_session "Auto Detect" "Klingon" "bonjour" in
  (blank (input_text s) = false
   /\ blank (target_lang s) = false
   /\ dict_lookup (LANG_NAME_TO_CODE sample_LANGUAGES title_ascii)
        (strip (target_lang s)) = None)
  /\ translate_text sample_upstream sample_LANGUAGES title_ascii s Fair
     = Run (Raised (KeyError (lit "Klingon"))) s Fair [].
Proof.
  intros s; split; [repeat split|].
  exact (translate_text_unknown_target sample_upstream sample_LANGUAGES
           title_ascii s Fair eq_refl eq_refl eq_refl).
Defined.

(** ** More concrete runs *)

(** The one exception that escapes: a target name the table lacks. *)
Lemma uncaught_only_key_error_witness :
  let s := sample_session "Auto Detect" "Klingon" "bonjour" in
  let r := perform sample_upstream sample_LANGUAGES sample_TTS_SUPPORTED
             title_ascii Translate s Fair in
  result r = Raised (KeyError (lit "Klingon"))
  /\ dict_lookup (LANG_NAME_TO_CODE sample_LANGUAGES title_ascii)
       (lit "Klingon") = None
  /\ trace r = [].
Proof.
  intros s r.
  destruct (uncaught_only_key_error sample_upstream sample_LANGUAGES
              sample_TTS_SUPPORTED title_ascii Translate s Fair
              (x := KeyError (lit "Klingon")) eq_refl)
    as (_ & _ & Hkey & _ & _ & Htrace).
  split; [reflexivity|]; split; [exact Hkey | exact Htrace].
Defined.

(** Nobody speaks: the run does not succeed and the session is kept. *)
Lemma listen_speech_failure_keeps_session_witness :
  let s := sample_session "French" "English" "earlier text" in
  let r := listen_speech sample_upstream sample_LANGUAGES title_ascii s
             Silent in
  succeeded r = false /\ session r = s.
Proof.
  intros s r; split; [reflexivity|].
  exact (listen_speech_failure_keeps_session sample_upstream
           sample_LANGUAGES title_ascii s Silent eq_refl).
Defined.

(** The recognizer does not understand the sample. *)
Lemma recognition_failure_report_witness :
  let s := sample_session "French" "English" "earlier text" in
  let audio := [82; 73; 70; 70] in
  let x := UnknownValueError [] in
  scripted_upstream (recognize_google audio (Some (lit "fr"))) [Fails x]
  = (inl x, [])
  /\ listen_speech scripted_upstream sample_LANGUAGES title_ascii s
       [Usual; Usual; Usual; Fails x]
     = Run (Returned tt) s []
           [Called Microphone;
            Shown (info (lit "Calibrating mic... stay quiet"));
            Called (adjust_for_ambient_noise (3 # 2));
            Shown (info (lit "Listening... Speak now " ++ [127908]));
            Called (listen 10 25); Shown (info (lit "Recognizing speech..."));
            Called (recognize_google audio (Some (lit "fr")));
            Shown UnintelligibleAudio].
Proof.
  intros s audio x; split; [reflexivity|].
  exact (recognition_failure_report scripted_upstream sample_LANGUAGES
           title_ascii s [Usual; Usual; Usual; Fails x]
           (e1 := [Usual; Usual; Fails x]) (e2 := [Usual; Fails x])
           (audio := audio) (e3 := [Fails x]) (x := x) (e4 := [])
           eq_refl eq_refl eq_refl eq_refl).
Defined.

(** The detection is out of reach: the transcript heard is not kept. *)
Lemma detection_failure_drops_transcript_witness :
  let s := sample_session "Auto Detect" "English" "earlier text" in
  let x := OtherException (lit "timed out") in
  let script := [Usual; Usual; Usual; Usual; Fails x] in
  let r := listen_speech scripted_upstream sample_LANGUAGES title_ascii s
             script in
  (selected_lang_code sample_LANGUAGES title_ascii s = lit "auto"
   /\ scripted_upstream (detect (lit "bonjour le monde")) [Fails x]
      = (inl x, []))
  /\ session r = s
  /\ succeeded r = false
  /\ recognitions (trace r) = [([82; 73; 70; 70], None)]
  /\ detections (trace r) = [lit "bonjour le monde"].
Proof.
  intros s x script r; split; [split; reflexivity|].
  exact (detection_failure_drops_transcript scripted_upstream
           sample_LANGUAGES title_ascii s script
           (e1 := [Usual; Usual; Usual; Fails x])
           (e2 := [Usual; Usual; Fails x]) (audio := [82; 73; 70; 70])
           (e3 := [Usual; Fails x]) (raw_text := lit "bonjour le monde")
           (e4 := [Fails x]) (x := x) (e5 := [])
           eq_refl eq_refl eq_refl eq_refl eq_refl eq_refl).
Defined.

(** A name the table lacks. *)
Lemma unknown_selection_is_auto_witness :
  let s := sample_session "Klingon" "English" "" in
  let r := listen_speech sample_upstream sample_LANGUAGES title_ascii s
             Fair in
  dict_lookup (LANG_NAME_TO_CODE sample_LANGUAGES title_ascii) (input_lang s)
  = None
  /\ selected_lang_code sample_LANGUAGES title_ascii s = lit "auto"
  /\ hd_error (recognitions (trace r)) = Some ([82; 73; 70; 70], None).
Proof.
  intros s r; split; [reflexivity|].
  exact (unknown_selection_is_auto sample_upstream sample_LANGUAGES
           title_ascii s Fair
           (e1 := Fair) (e2 := Fair) (audio := [82; 73; 70; 70]) (e3 := Fair)
           eq_refl eq_refl eq_refl eq_refl).
Defined.

(** Some text, and a target name of blanks. *)
Lemma translate_text_no_target_witness :
  let s := sample_session "Auto Detect" "  " "bonjour" in
  (blank (input_text s) = false /\ blank (target_lang s) = true)
  /\ translate_text sample_upstream sample_LANGUAGES title_ascii s Fair
     = Run (Returned tt) s Fair [Shown NoTargetSelected].
Proof.
  intros s; split; [split; reflexivity|].
  exact (translate_text_no_target sample_upstream sample_LANGUAGES
           title_ascii s Fair eq_refl eq_refl).
Defined.

(** The translation service is out of reach. *)
Lemma translate_text_service_error_witness :
  let s := sample_session "Auto Detect" "English" " bonjour " in
  let x := OtherException (lit "Failed to connect") in
  scripted_upstream (translate (lit "bonjour") (lit "auto") (lit "en"))
    [Fails x] = (inl x, [])
  /\ translate_text scripted_upstream sample_LANGUAGES title_ascii s
       [Fails x]
     = Run (Returned tt) s []
           [Called (translate (lit "bonjour") (lit "auto") (lit "en"));
            Shown (TranslationServiceError x)].
Proof.
  intros s x; split; [reflexivity|].
  exact (translate_text_service_error scripted_upstream sample_LANGUAGES
           title_ascii s [Fails x]
           (dest_code := lit "en") (x := x) (e1 := [])
           eq_refl eq_refl eq_refl eq_refl).
Defined.

(** The same run: one request, no success, no entry. *)
Lemma translate_text_no_entry_without_success_witness :
  let s := sample_session "Auto Detect" "English" " bonjour " in
  let r := translate_text scripted_upstream sample_LANGUAGES title_ascii s
             [Fails (OtherException (lit "Failed to connect"))] in
  succeeded r = false
  /\ translations (trace r) = [(lit "bonjour", lit "auto", lit "en")]
  /\ translation_history (session r) = translation_history s.
Proof.
  intros s r; split; [reflexivity|]; split; [reflexivity|].
  exact (proj2 (translate_text_no_entry_without_success scripted_upstream
                  sample_LANGUAGES title_ascii s
                  [Fails (OtherException (lit "Failed to connect"))])
           eq_refl).
Defined.

(** Hebrew has two codes in the table; the name selects the later one. *)
Lemma name_table_last_wins_witness :
  let before := [ (lit "en", lit "english"); (lit "fr", lit "french");
                  (lit "iw", lit "hebrew") ] in
  let rest := [ (lit "te", lit "telugu");
                (lit "zh-cn", lit "chinese (simplified)") ] in
  sample_LANGUAGES = before ++ (lit "he", lit "hebrew") :: rest
  /\ dict_lookup (LANG_NAME_TO_CODE sample_LANGUAGES title_ascii)
       (lit "Hebrew") = Some (lit "he").
Proof.
  intros before rest; split; [reflexivity|].
  refine (name_table_last_wins title_ascii before (lit "he") (lit "hebrew")
            rest eq_refl _).
  intros c n [H|[H|[]]]; injection H as <- <-; discriminate.
Defined.

(** A name of the table as target: the run returns. *)
Lemma listed_target_never_raises_witness :
  let s := sample_session "Auto Detect" "English" "bonjour" in
  (In (target_lang s)
      (map fst (LANG_NAME_TO_CODE sample_LANGUAGES title_ascii))
   /\ strip (target_lang s) = target_lang s)
  /\ result (translate_text sample_upstream sample_LANGUAGES title_ascii
               s Fair) = Returned tt
  /\ result (speak_output sample_upstream sample_LANGUAGES
               sample_TTS_SUPPORTED title_ascii s Fair) = Returned tt.
Proof.
  intros s.
  assert (Hlisted : In (target_lang s)
                       (map fst (LANG_NAME_TO_CODE sample_LANGUAGES
                                   title_ascii)))
    by (vm_compute; left; reflexivity).
  split; [split; [exact Hlisted | reflexivity]|].
  exact (listed_target_never_raises sample_upstream sample_LANGUAGES
           sample_TTS_SUPPORTED title_ascii s Fair Hlisted eq_refl).
Defined.

(** French is supported and the service answers. *)
Lemma speak_text_stores_audio_witness :
  let s := sample_session "" "" "" in
  let r := speak_text sample_upstream sample_LANGUAGES sample_TTS_SUPPORTED
             (lit "bonjour") (lit "fr") s Fair in
  dict_mem sample_TTS_SUPPORTED (lit "fr") = true
  /\ audio_data (session r) = Some [73; 68; 51]
  /\ audio_lang (session r) = Some (lit "fr")
  /\ shown (trace r) = [].
Proof.
  intros s r; split; [reflexivity|]; subst r.
  rewrite (speak_text_stores_audio sample_upstream sample_LANGUAGES
             sample_TTS_SUPPORTED (lit "bonjour") (lit "fr") s Fair
             (u := tt) (e1 := Fair) (audio_buffer := [73; 68; 51])
             (e2 := Fair) eq_refl eq_refl eq_refl).
  repeat split.
Defined.

(** Nothing heard yet. *)
Lemma speak_input_blank_witness :
  let s := sample_session "Auto Detect" "English" " " in
  blank (input_text s) = true
  /\ syntheses
       (trace (speak_input sample_upstream sample_LANGUAGES
                 sample_TTS_SUPPORTED s Fair)) = [].
Proof.
  intros s; split; [reflexivity|].
  rewrite (speak_input_blank sample_upstream sample_LANGUAGES
             sample_TTS_SUPPORTED s Fair eq_refl).
  reflexivity.
Defined.

(** Nothing translated yet. *)
Lemma speak_output_blank_witness :
  let s := sample_session "Auto Detect" "English" "bonjour" in
  blank (translated_text s) = true
  /\ speak_output sample_upstream sample_LANGUAGES sample_TTS_SUPPORTED
       title_ascii s Fair
     = Run (Returned tt) s Fair
           [Shown (info (lit "No translated text to speak."))].
Proof.
  intros s; split; [reflexivity|].
  exact (speak_output_blank sample_upstream sample_LANGUAGES
           sample_TTS_SUPPORTED title_ascii s Fair (or_introl eq_refl)).
Defined.

(** A translation into Chinese: the code of the name is not one the
    synthesis supports, and [speak_text] says so. *)
Lemma speak_output_target_code_witness :
  let s := set_translated_text (lit "ni hao ")
             (sample_session "English" "Chinese (Simplified)" "hello") in
  (blank (translated_text s) = false
   /\ blank (target_lang s) = false
   /\ dict_lookup (LANG_NAME_TO_CODE sample_LANGUAGES title_ascii)
        (strip (target_lang s)) = Some (lit "zh-cn"))
  /\ speak_output sample_upstream sample_LANGUAGES sample_TTS_SUPPORTED
       title_ascii s Fair
     = Run (Returned tt) s Fair
           [Shown (warning (lit "No TTS support for chinese (simplified)"))].
Proof.
  intros s; split; [repeat split|].
  rewrite (speak_output_target_code sample_upstream sample_LANGUAGES
             sample_TTS_SUPPORTED title_ascii s Fair
             (dest_code := lit "zh-cn") eq_refl eq_refl eq_refl).
  reflexivity.
Defined.

(** Chinese selected: the translation is asked from [zh]. *)
Lemma listen_then_translate_witness :
  let s := sample_session "Chinese (Simplified)" "English" "" in
  let heard := listen_speech sample_upstream sample_LANGUAGES title_ascii
                 s Fair in
  (selected_lang_code sample_LANGUAGES title_ascii s = lit "zh-cn"
   /\ lit "zh-cn" <> lit "auto"
   /\ blank (lit "Bonjour le monde") = false
   /\ blank (target_lang s) = false)
  /\ translations
       (trace (translate_text sample_upstream sample_LANGUAGES title_ascii
                 (session heard) (world heard)))
     = [(lit "Bonjour le monde", lit "zh", lit "en")].
Proof.
  intros s heard.
  assert (Hcode : lit "zh-cn" <> lit "auto") by discriminate.
  split; [repeat split; exact Hcode|].
  exact (listen_then_translate sample_upstream sample_LANGUAGES title_ascii
           s Fair
           (e1 := Fair) (e2 := Fair) (audio := [82; 73; 70; 70])
           (e3 := Fair) (code := lit "zh-cn")
           (text := lit "Bonjour le monde") (e4 := Fair)
           (dest_code := lit "en")
           eq_refl Hcode eq_refl eq_refl eq_refl eq_refl eq_refl eq_refl
           eq_refl).
Defined.
